(** * DeepVO: the epoch batch generator and its pose arithmetic

    A shallow embedding of [src/Epoch.py]: the pose helpers
    ([is_rotation_matrix], [rotation_matrix_to_euler_angles],
    [rectify_poses], [mat_to_pose_vector], [process_poses]), the [.flo]
    reader [read_flow], the test entry point [test_batch] and the class
    [Epoch] with [partition_sequences], [is_complete], [get_sample] and
    [get_batch].

    Conventions of the embedding.
    - A Python float (and a numpy float64) is a binary64 [float] of the
      kernel; [math.sqrt] is [PrimFloat.sqrt].  Python integers are [Z].
    - A raised exception is the [Raise] case of [result]; methods that
      mutate [self] before raising return the mutated object next to the
      result.
    - Library routines whose rounding is not fixed by their documentation
      (LAPACK's inverse behind [numpy.linalg.inv], libm's [atan2]), the
      pixel arithmetic of PIL and numpy on camera images, and the dataset
      loader [odometry], which is not part of [src/], are fields of the
      classes [Numerics] and [Dataset]: every theorem holds for all their
      implementations.  Executable instances are given for running the
      model on concrete data.
    - Directories are finite maps from names to contents. *)

From Stdlib Require Import Floats ZArith Lia.
From Stdlib Require Strings.Byte.
From stdpp Require Import gmap strings list pretty.

Local Open Scope Z_scope.

(** ** Exceptions and results *)

(** The Python exceptions the module can raise.  [Exception] is the bare
    [Exception(msg)] of [read_flow]. *)
Inductive exn : Type :=
  | AssertionError
  | IndexError
  | TypeError
  | ValueError
  | FileNotFoundError
  | UnicodeDecodeError
  | LinAlgError
  | Exception (msg : string).

Inductive result (A : Type) : Type :=
  | Ok (a : A)
  | Raise (e : exn).
Arguments Ok {A} a.
Arguments Raise {A} e.

#[global] Instance result_ret : MRet result := fun _ a => Ok a.
#[global] Instance result_bind : MBind result := fun _ _ f m =>
  match m with
  | Ok a => f a
  | Raise e => Raise e
  end.
#[global] Instance result_fmap : FMap result := fun _ _ f m =>
  match m with
  | Ok a => Ok (f a)
  | Raise e => Raise e
  end.

Definition is_ok {A} (r : result A) : bool :=
  match r with
  | Ok _ => true
  | Raise _ => false
  end.

(** ** numpy arrays

    An array is its shape and its entries in row-major order.  The dtype is
    not tracked: every entry is the binary64 float of the same value (each
    float32 and each pixel is one exactly). *)

Record ndarray : Type := NdArray { shape : list nat; data : list float }.

(** [len(a)]: the first dimension; a 0-d array has no length. *)
Definition np_len (a : ndarray) : option nat := head (shape a).

Definition shape_size (s : list nat) : nat := foldr Nat.mul 1%nat s.

(** [np.zeros(shape)] *)
Definition np_zeros (s : list nat) : ndarray :=
  NdArray s (replicate (shape_size s) 0%float).

(** [np.array([x, y, ...])] on scalars: a 1-d array. *)
Definition np_array1 (l : list float) : ndarray := NdArray [length l] l.

(** [np.array(l)] on a list of arrays stacks them along a new first axis.
    The entries must agree in shape: numpy (1.24 and later) raises
    [ValueError] on a ragged list, and earlier versions build an object
    array of the same length; the strict behaviour is the one modelled.
    The empty list gives the empty 1-d array. *)
Definition np_array (l : list ndarray) : result ndarray :=
  match l with
  | [] => Ok (NdArray [0%nat] [])
  | a :: rest =>
      if forallb (fun b => bool_decide (shape b = shape a)) rest
      then Ok (NdArray (length l :: shape a) (concat (map data l)))
      else Raise ValueError
  end.

(** [np.concatenate((a, b))] for 1-d arrays. *)
Definition np_concatenate (a b : ndarray) : result ndarray :=
  match shape a, shape b with
  | [n], [m] => Ok (NdArray [(n + m)%nat] (data a ++ data b))
  | _, _ => Raise ValueError
  end.

(** ** Small matrices

    A pose is a 4x4 matrix and a rotation block a 3x3 matrix, as rows of
    floats; [r[i, j]] is the component [rij] of the pattern. *)

Definition vec3 : Type := float * float * float.
Definition mat3 : Type := vec3 * vec3 * vec3.
Definition vec4 : Type := float * float * float * float.
Definition mat4 : Type := vec4 * vec4 * vec4 * vec4.

Definition vdot3 (a b : vec3) : float :=
  let '(a0, a1, a2) := a in
  let '(b0, b1, b2) := b in
  (a0 * b0 + a1 * b1 + a2 * b2)%float.

Definition vdot4 (a b : vec4) : float :=
  let '(a0, a1, a2, a3) := a in
  let '(b0, b1, b2, b3) := b in
  (a0 * b0 + a1 * b1 + a2 * b2 + a3 * b3)%float.

(** [np.transpose(r)] *)
Definition np_transpose3 (r : mat3) : mat3 :=
  let '((r00, r01, r02), (r10, r11, r12), (r20, r21, r22)) := r in
  ((r00, r10, r20), (r01, r11, r21), (r02, r12, r22)).

Definition np_transpose4 (m : mat4) : mat4 :=
  let '((m00, m01, m02, m03), (m10, m11, m12, m13),
        (m20, m21, m22, m23), (m30, m31, m32, m33)) := m in
  ((m00, m10, m20, m30), (m01, m11, m21, m31),
   (m02, m12, m22, m32), (m03, m13, m23, m33)).

(** [np.dot(a, b)]: the matrix product, each entry the sum of its products
    taken from left to right. *)
Definition np_dot3 (a b : mat3) : mat3 :=
  let '(a0, a1, a2) := a in
  let '(c0, c1, c2) := np_transpose3 b in
  ((vdot3 a0 c0, vdot3 a0 c1, vdot3 a0 c2),
   (vdot3 a1 c0, vdot3 a1 c1, vdot3 a1 c2),
   (vdot3 a2 c0, vdot3 a2 c1, vdot3 a2 c2)).

Definition np_dot4 (a b : mat4) : mat4 :=
  let '(a0, a1, a2, a3) := a in
  let '(c0, c1, c2, c3) := np_transpose4 b in
  ((vdot4 a0 c0, vdot4 a0 c1, vdot4 a0 c2, vdot4 a0 c3),
   (vdot4 a1 c0, vdot4 a1 c1, vdot4 a1 c2, vdot4 a1 c3),
   (vdot4 a2 c0, vdot4 a2 c1, vdot4 a2 c2, vdot4 a2 c3),
   (vdot4 a3 c0, vdot4 a3 c1, vdot4 a3 c2, vdot4 a3 c3)).

(** [np.identity(3)] *)
Definition np_identity3 : mat3 :=
  ((1, 0, 0), (0, 1, 0), (0, 0, 1))%float.

Definition np_identity4 : mat4 :=
  ((1, 0, 0, 0), (0, 1, 0, 0), (0, 0, 1, 0), (0, 0, 0, 1))%float.

(** [a - b], entry by entry. *)
Definition np_sub3 (a b : mat3) : mat3 :=
  let '((a00, a01, a02), (a10, a11, a12), (a20, a21, a22)) := a in
  let '((b00, b01, b02), (b10, b11, b12), (b20, b21, b22)) := b in
  ((a00 - b00, a01 - b01, a02 - b02),
   (a10 - b10, a11 - b11, a12 - b12),
   (a20 - b20, a21 - b21, a22 - b22))%float.

Definition mat3_entries (m : mat3) : list float :=
  let '((m00, m01, m02), (m10, m11, m12), (m20, m21, m22)) := m in
  [m00; m01; m02; m10; m11; m12; m20; m21; m22].

(** [np.linalg.norm(m)]: the Frobenius norm, the square root of the sum of
    the squared entries. *)
Definition np_linalg_norm (m : mat3) : float :=
  PrimFloat.sqrt
    (foldl (fun acc x => (acc + x * x)%float) 0%float (mat3_entries m)).

(** [pose[:3, :3]] and [pose[:3, 3]] *)
Definition rotation_block (pose : mat4) : mat3 :=
  let '((m00, m01, m02, _), (m10, m11, m12, _), (m20, m21, m22, _), _) := pose in
  ((m00, m01, m02), (m10, m11, m12), (m20, m21, m22)).

Definition translation_column (pose : mat4) : ndarray :=
  let '((_, _, _, m03), (_, _, _, m13), (_, _, _, m23), _) := pose in
  np_array1 [m03; m13; m23].

(** The determinant of a 3x3 matrix by expansion along the first row.  The
    source never computes it; the claims about rotation matrices do. *)
Definition det3 (r : mat3) : float :=
  let '((r00, r01, r02), (r10, r11, r12), (r20, r21, r22)) := r in
  (r00 * (r11 * r22 - r12 * r21)
   - r01 * (r10 * r22 - r12 * r20)
   + r02 * (r10 * r21 - r11 * r20))%float.

(** The literal [1e-6]: the binary64 float nearest to it. *)
Definition tolerance : float := 0x1.0c6f7a0b5ed8dp-20%float.

(** ** Python helpers *)

(** The length of [range(lo, hi, step)], as CPython computes it. *)
Definition range_length (lo hi step : Z) : Z :=
  if (0 <? step) && (lo <? hi) then 1 + (hi - 1 - lo) / step
  else if (step <? 0) && (hi <? lo) then 1 + (lo - 1 - hi) / (- step)
  else 0.

(** The items of [range(start, stop, step)] for a non-zero step. *)
Definition range_items (start stop step : Z) : list Z :=
  map (fun i => start + Z.of_nat i * step)
      (seq 0 (Z.to_nat (range_length start stop step))).

(** [range(start, stop, step)]; a zero step raises [ValueError]. *)
Definition py_range (start stop step : Z) : result (list Z) :=
  if step =? 0 then Raise ValueError else Ok (range_items start stop step).

(** [l[i]] on a list, negative indices counting from the end. *)
Definition py_getitem {A} (l : list A) (i : Z) : result A :=
  let n := Z.of_nat (length l) in
  let k := if i <? 0 then i + n else i in
  if (0 <=? k) && (k <? n)
  then from_option Ok (Raise IndexError) (l !! Z.to_nat k)
  else Raise IndexError.

(** [l.pop()]: the last item and the list without it. *)
Definition list_pop {A} (l : list A) : result (A * list A) :=
  match last l with
  | Some a => Ok (a, removelast l)
  | None => Raise IndexError
  end.

(** [for i in l: y = f(y, i)], the body raising or not. *)
Fixpoint for_each {A B} (f : B -> A -> result B) (y : B) (l : list A) : result B :=
  match l with
  | [] => Ok y
  | i :: rest => y' ← f y i; for_each f y' rest
  end.

(** [x[i], x[j] = x[j], x[i]] *)
Definition list_swap {A} (x : list A) (i j : nat) : list A :=
  match x !! i, x !! j with
  | Some a, Some b => <[j:=a]> (<[i:=b]> x)
  | _, _ => x
  end.

(** [random.shuffle(x)] of CPython,
    [for i in reversed(range(1, len(x))): j = randbelow(i + 1); swap],
    reading its draws from [rnd]: the [k]-th call of [randbelow(n)] returns
    [rnd k mod n]. *)
Fixpoint shuffle_from {A} (rnd : nat -> nat) (k i : nat) (x : list A) : list A :=
  match i with
  | O => x
  | S i' =>
      let j := (rnd k mod (i + 1))%nat in
      shuffle_from rnd (S k) i' (list_swap x i j)
  end.

Definition random_shuffle {A} (rnd : nat -> nat) (x : list A) : list A :=
  shuffle_from rnd 0 (length x - 1) x.

(** ** External routines *)

(** [numpy.linalg.inv], which raises [LinAlgError] on a singular matrix, and
    [math.atan2]. *)
Class Numerics : Type := {
  inv : mat4 -> result mat4;
  atan2 : float -> float -> float
}.

(** What [odometry(basedir, seq, frames)] loads: the poses and the camera
    image pairs of the frames. *)
Record odometry_data (image : Type) : Type := OdometryData {
  poses : list mat4;
  rgb : list (image * image)
}.
Arguments OdometryData {image} poses rgb.
Arguments poses {image} o.
Arguments rgb {image} o.

(** The dataset loader and the image arithmetic of [get_stacked_rgbs]:
    [pixels_of_image] is [np.array(img)], [mean_pixels rgbs n] is
    [sum(rgbs) / float(n)], [pixels_sub] is [-], and [np_dstack],
    [np_vstack], [np_array_batch] are numpy's [dstack], [vstack] and
    [np.array([v])]. *)
Class Dataset : Type := {
  basedir : Type;
  image : Type;
  pixels : Type;
  odometry : basedir -> string -> option (list Z) -> result (odometry_data image);
  pixels_of_image : image -> pixels;
  mean_pixels : list pixels -> Z -> result pixels;
  pixels_sub : pixels -> pixels -> result pixels;
  np_dstack : pixels -> pixels -> result pixels;
  np_vstack : list pixels -> result pixels;
  np_array_batch : pixels -> pixels
}.

(** *** Executable instances *)

(** An inverse by Gauss-Jordan elimination with partial pivoting on the rows
    of [m | I]; a zero pivot is a singular matrix. *)
Definition row_of_vec4 (v : vec4) : list float :=
  let '(a, b, c, d) := v in [a; b; c; d].

Definition augmented_rows (m : mat4) : list (list float) :=
  let '(r0, r1, r2, r3) := m in
  let '(i0, i1, i2, i3) := np_identity4 in
  [row_of_vec4 r0 ++ row_of_vec4 i0; row_of_vec4 r1 ++ row_of_vec4 i1;
   row_of_vec4 r2 ++ row_of_vec4 i2; row_of_vec4 r3 ++ row_of_vec4 i3].

Definition entry (row : list float) (c : nat) : float := nth c row nan.

(** The row of largest magnitude in column [c], and the other rows. *)
Fixpoint pick_pivot (c : nat) (rows : list (list float))
  : option (list float * list (list float)) :=
  match rows with
  | [] => None
  | r :: rest =>
      match pick_pivot c rest with
      | None => Some (r, [])
      | Some (best, others) =>
          if (abs (entry r c) <? abs (entry best c))%float
          then Some (best, r :: others)
          else Some (r, best :: others)
      end
  end.

Definition eliminate (c : nat) (pivot row : list float) : list float :=
  let factor := entry row c in
  zip_with (fun x p => (x - factor * p)%float) row pivot.

Fixpoint gauss_jordan (cols : list nat) (solved pending : list (list float))
  : result (list (list float)) :=
  match cols with
  | [] => Ok solved
  | c :: cols' =>
      match pick_pivot c pending with
      | None => Raise LinAlgError
      | Some (p, others) =>
          if (entry p c =? 0)%float then Raise LinAlgError
          else
            let p' := map (fun x => (x / entry p c)%float) p in
            gauss_jordan cols'
              (map (eliminate c p') solved ++ [p'])
              (map (eliminate c p') others)
      end
  end.

Definition vec4_of_row (r : list float) : vec4 :=
  (entry r 4, entry r 5, entry r 6, entry r 7).

Definition inv_gauss_jordan (m : mat4) : result mat4 :=
  rows ← gauss_jordan [0; 1; 2; 3]%nat [] (augmented_rows m);
  match rows with
  | [r0; r1; r2; r3] =>
      Ok (vec4_of_row r0, vec4_of_row r1, vec4_of_row r2, vec4_of_row r3)
  | _ => Raise LinAlgError
  end.

(** [atan2] on the axes, where C fixes its value: [atan2(±0, x) = ±0] for
    [x > 0], and [atan2(y, ±0) = ±pi/2] for [y] non-zero.  Elsewhere this
    instance answers [nan]. *)
Definition half_pi : float := 0x1.921fb54442d18p+0%float.

Definition atan2_axes (y x : float) : float :=
  if (y =? 0)%float && (0 <? x)%float then y
  else if (x =? 0)%float && (0 <? y)%float then half_pi
  else if (x =? 0)%float && (y <? 0)%float then (- half_pi)%float
  else nan.

Definition axes_numerics : Numerics :=
  {| inv := inv_gauss_jordan; atan2 := atan2_axes |}.

(** A dataset of poses only: a base directory maps a sequence to the poses of
    its frames, no sequence has camera images, and [frames] selects poses by
    index. *)
Definition pose_store_odometry (b : gmap string (list mat4)) (seq : string)
    (frames : option (list Z)) : result (odometry_data Empty_set) :=
  match b !! seq with
  | None => Raise FileNotFoundError
  | Some all =>
      ps ← match frames with
           | None => Ok all
           | Some fs => mapM (py_getitem all) fs
           end;
      Ok (OdometryData ps [])
  end.

Definition pose_store : Dataset :=
  {| basedir := gmap string (list mat4);
     image := Empty_set;
     pixels := Empty_set;
     odometry := pose_store_odometry;
     pixels_of_image := fun i => i;
     mean_pixels := fun _ _ => Raise TypeError;
     pixels_sub := fun a _ => Ok a;
     np_dstack := fun a _ => Ok a;
     np_vstack := fun _ => Raise ValueError;
     np_array_batch := fun a => a |}.

(** ** Binary files *)

(** An open file: its bytes and the read position. *)
Record file : Type := File { content : list Byte.byte; pos : nat }.

(** [f.read(n)]: the next [n] bytes, fewer at the end of the file. *)
Definition f_read (n : nat) (f : file) : list Byte.byte * file :=
  let bs := take n (drop (pos f) (content f)) in
  (bs, File (content f) (pos f + length bs)).

(** Groups of four bytes, an incomplete last group dropped. *)
Fixpoint words4 (bs : list Byte.byte) : list (list Byte.byte) :=
  match bs with
  | b0 :: b1 :: b2 :: b3 :: rest => [b0; b1; b2; b3] :: words4 rest
  | _ => []
  end.

(** [np.fromfile(f, dtype, count)] for a dtype of four bytes: [count] items,
    fewer when the file ends first, and every remaining whole item for a
    negative [count].  The position advances past the bytes the read
    consumed: the whole items for a negative [count]; otherwise the
    [4 * count] bytes asked for or, when the file ends first, all that is
    left, the bytes of an incomplete last item included. *)
Definition np_fromfile (count : Z) (f : file) : list (list Byte.byte) * file :=
  let rest := drop (pos f) (content f) in
  let items := words4 rest in
  if count <? 0 then (items, File (content f) (pos f + 4 * length items))
  else (take (Z.to_nat count) items,
        File (content f) (pos f + Nat.min (4 * Z.to_nat count) (length rest))).

(** The unsigned value of little-endian bytes. *)
Fixpoint le_unsigned (bs : list Byte.byte) : Z :=
  match bs with
  | [] => 0
  | b :: rest => Z.of_N (Byte.to_N b) + 256 * le_unsigned rest
  end.

(** Wrap-around to a signed 32-bit integer. *)
Definition wrap32 (z : Z) : Z := (z + 2 ^ 31) mod 2 ^ 32 - 2 ^ 31.

(** A four-byte item as [np.int32] (native byte order: little-endian). *)
Definition int32_of_bytes (bs : list Byte.byte) : Z := wrap32 (le_unsigned bs).

(** A four-byte item as [np.float32]: the float of the same value. *)
Definition float32_of_bytes (bs : list Byte.byte) : float :=
  let bits := le_unsigned bs in
  let negative := Z.testbit bits 31 in
  let e := Z.land (Z.shiftr bits 23) 255 in
  let m := Z.land bits (2 ^ 23 - 1) in
  let magnitude :=
    if e =? 255 then (if m =? 0 then infinity else nan)
    else if e =? 0 then Z.ldexp (of_uint63 (Uint63.of_Z m)) (-149)
    else Z.ldexp (of_uint63 (Uint63.of_Z (2 ^ 23 + m))) (e - 150) in
  if negative then (- magnitude)%float else magnitude.

(** [a.reshape((d0, d1, d2))]: one negative dimension is inferred from the
    size, otherwise the sizes must agree; [ValueError] if they cannot. *)
Definition np_reshape3 (d : list float) (d0 d1 d2 : Z) : result ndarray :=
  let dims := [d0; d1; d2] in
  let size := Z.of_nat (length d) in
  let known := foldr Z.mul 1 (filter (fun z => 0 <= z) dims) in
  match length (filter (fun z => z < 0) dims) with
  | O =>
      if known =? size then Ok (NdArray (map Z.to_nat dims) d)
      else Raise ValueError
  | 1%nat =>
      if (known =? 0) || negb (size mod known =? 0) then Raise ValueError
      else Ok (NdArray
                 (map (fun z => Z.to_nat (if z <? 0 then size / known else z)) dims)
                 d)
  | _ => Raise ValueError
  end.

(** *** UTF-8 *)

Definition continuation (b : N) : bool := ((128 <=? b) && (b <=? 191))%N.

Definition in_range (lo hi b : N) : bool := ((lo <=? b) && (b <=? hi))%N.

(** [bytes.decode("utf-8")], strict: the code points, or [None] where Python
    raises [UnicodeDecodeError] (a stray or missing continuation byte, an
    overlong form, a surrogate, a value above U+10FFFF). *)
Fixpoint utf8_decode (bs : list N) : option (list N) :=
  match bs with
  | [] => Some []
  | b0 :: r0 =>
      if (b0 <? 128)%N then cons b0 <$> utf8_decode r0
      else if in_range 194 223 b0 then
        match r0 with
        | b1 :: r1 =>
            if continuation b1
            then cons ((b0 - 192) * 64 + (b1 - 128))%N <$> utf8_decode r1
            else None
        | _ => None
        end
      else if in_range 224 239 b0 then
        match r0 with
        | b1 :: b2 :: r2 =>
            if in_range (if (b0 =? 224)%N then 160 else 128)
                        (if (b0 =? 237)%N then 159 else 191) b1
               && continuation b2
            then cons ((b0 - 224) * 4096 + (b1 - 128) * 64 + (b2 - 128))%N
                   <$> utf8_decode r2
            else None
        | _ => None
        end
      else if in_range 240 244 b0 then
        match r0 with
        | b1 :: b2 :: b3 :: r3 =>
            if in_range (if (b0 =? 240)%N then 144 else 128)
                        (if (b0 =? 244)%N then 143 else 191) b1
               && continuation b2 && continuation b3
            then cons ((b0 - 240) * 262144 + (b1 - 128) * 4096
                       + (b2 - 128) * 64 + (b3 - 128))%N
                   <$> utf8_decode r3
            else None
        | _ => None
        end
      else None
  end.

(** The code points of ['PIEH']. *)
Definition PIEH : list N := [80; 73; 69; 72]%N.

Definition header_message : string := "Flow file header does not contain PIEH".

(** ** [read_flow]

    The body of [read_flow] on the opened file; the file is returned as the
    reads left it. *)
Definition read_flow_file (f : file) : result ndarray * file :=
  let '(header, f) := f_read 4 f in
  match utf8_decode (map Byte.to_N header) with
  | None => (Raise UnicodeDecodeError, f)
  | Some text =>
      if bool_decide (text ≠ PIEH) then (Raise (Exception header_message), f)
      else
        let '(width, f) := np_fromfile 1 f in
        let '(height, f) := np_fromfile 1 f in
        match width, height with
        | [w], [h] =>
            let width := int32_of_bytes w in
            let height := int32_of_bytes h in
            let '(flow, f) := np_fromfile (wrap32 (wrap32 (width * height) * 2)) f in
            (np_reshape3 (map float32_of_bytes flow) height width 2, f)
        | _, _ =>
            (* a read at the end of the file leaves an empty array, which is
               no count for the next [np.fromfile] *)
            (Raise TypeError, f)
        end
  end.

(** A flow directory: sequence name, then file name, then bytes. *)
Abbreviation flow_store := (gmap string (gmap string (list Byte.byte))).

(** [read_flow(join(seq_path, name))] *)
Definition read_flow (flowdir : flow_store) (seq name : string) : result ndarray :=
  match flowdir !! seq ≫= (fun dir => dir !! name) with
  | None => Raise FileNotFoundError
  | Some bytes => fst (read_flow_file (File bytes 0))
  end.

(** ** The module [Epoch.py] *)

Section Epoch.

Context {numerics : Numerics} {dataset : Dataset}.

(** [is_rotation_matrix(r)] *)
Definition is_rotation_matrix (r : mat3) : bool :=
  let rt := np_transpose3 r in
  let should_be_identity := np_dot3 rt r in
  let i := np_identity3 in
  let n := np_linalg_norm (np_sub3 i should_be_identity) in
  (n <? tolerance)%float.

(** [rotation_matrix_to_euler_angles(r)] *)
Definition rotation_matrix_to_euler_angles (r : mat3) : result ndarray :=
  if negb (is_rotation_matrix r) then Raise AssertionError
  else
    let '((r00, r01, r02), (r10, r11, r12), (r20, r21, r22)) := r in
    let sy := PrimFloat.sqrt (r00 * r00 + r10 * r10)%float in
    let singular := (sy <? tolerance)%float in
    if negb singular then
      let x := atan2 r21 r22 in
      let y := atan2 (- r20)%float sy in
      let z := atan2 r10 r00 in
      Ok (np_array1 [x; y; z])
    else
      let x := atan2 (- r12)%float r11 in
      let y := atan2 (- r20)%float sy in
      let z := 0%float in
      Ok (np_array1 [x; y; z]).

(** [rectify_poses(poses)] *)
Definition rectify_poses (poses : list mat4) : result (list mat4) :=
  match poses with
  | [] => Raise IndexError
  | first_frame :: rest =>
      mapM (fun x => m ← inv first_frame; Ok (np_dot4 m x)) rest
  end.

(** [mat_to_pose_vector(pose)] *)
Definition mat_to_pose_vector (pose : mat4) : result ndarray :=
  angles ← rotation_matrix_to_euler_angles (rotation_block pose);
  np_concatenate angles (translation_column pose).

(** [process_poses(poses)] *)
Definition process_poses (poses : list mat4) : result ndarray :=
  rectified_poses ← rectify_poses poses;
  vectors ← mapM mat_to_pose_vector rectified_poses;
  np_array vectors.

(** [get_stacked_rgbs(dataset, batch_frames)].  Both parameters are required:
    a call that leaves [batch_frames] out, written [None] here, raises
    [TypeError] before the body runs. *)
Definition get_stacked_rgbs (data : odometry_data image) (batch_frames : option Z)
  : result (list pixels) :=
  match batch_frames with
  | None => Raise TypeError
  | Some batch_frames =>
      let rgbs := map (fun '(left_cam, _) => pixels_of_image left_cam) (rgb data) in
      mean_rgb ← mean_pixels rgbs batch_frames;
      rgbs ← mapM (fun rgb => pixels_sub rgb mean_rgb) rgbs;
      mapM (fun '(frame1, frame2) => np_dstack frame1 frame2) (zip rgbs (tail rgbs))
  end.

(** [test_batch(basedir, seq)]; it calls [get_stacked_rgbs(dataset)], with
    one argument. *)
Definition test_batch (base : basedir) (seq : string) : result (pixels * ndarray) :=
  data ← odometry base seq None;
  let poses := poses data in
  stacked ← get_stacked_rgbs data None;
  stacked ← np_vstack stacked;
  let x := np_array_batch stacked in
  y ← process_poses poses;
  Ok (x, y).

(** A window: [(seq_no, (window_start, window_end))]. *)
Definition window : Type := string * (Z * Z).

(** The attributes of an [Epoch] object. *)
Record Epoch : Type := mkEpoch {
  datadir : basedir;
  flowdir : flow_store;
  train_seq_nos : list string;
  window_size : Z;
  step_size : Z;
  batch_size : Z;
  window_idxs : list window
}.

Definition set_window_idxs (idxs : list window) (self : Epoch) : Epoch :=
  mkEpoch (datadir self) (flowdir self) (train_seq_nos self) (window_size self)
          (step_size self) (batch_size self) idxs.

(** [Epoch.is_complete] *)
Definition is_complete (self : Epoch) : bool :=
  if (0 <? length (window_idxs self))%nat then false else true.

(** The inner loop of [partition_sequences]: the windows of one sequence of
    [len_seq] flow files. *)
Definition sequence_windows (window_size step_size : Z) (seq_no : string)
    (len_seq : Z) : result (list window) :=
  starts ← py_range 1 (len_seq - window_size + 1) step_size;
  Ok (map (fun window_start =>
             let window_end :=
               Z.min (window_start + window_size + 1) (len_seq + 1) in
             (seq_no, (window_start, window_end)))
          starts).

(** The outer loop: [len(os.listdir(...))] counts the entries of the
    sequence's flow directory, and the windows are appended in order. *)
Fixpoint partition_loop (self : Epoch) (seq_nos : list string)
    (idxs : list window) : result (list window) :=
  match seq_nos with
  | [] => Ok idxs
  | seq_no :: rest =>
      match flowdir self !! seq_no with
      | None => Raise FileNotFoundError
      | Some dir =>
          let len_seq := Z.of_nat (size dir) in
          new ← sequence_windows (window_size self) (step_size self) seq_no len_seq;
          partition_loop self rest (idxs ++ new)
      end
  end.

(** [Epoch.partition_sequences], the shuffle drawing from [rnd]. *)
Definition partition_sequences (rnd : nat -> nat) (self : Epoch) : result Epoch :=
  idxs ← partition_loop self (train_seq_nos self) (window_idxs self);
  Ok (set_window_idxs (random_shuffle rnd idxs) self).

(** What [Epoch.__init__] prints. *)
Definition init_output (window_size step_size : Z) : list string :=
  if window_size <? step_size
  then ["WARNING: step_size greater than window size. This will result in unseen sequence frames."]
  else [].

(** [Epoch.__init__] *)
Definition Epoch_init (rnd : nat -> nat) (datadir : basedir) (flowdir : flow_store)
    (train_seq_nos : list string) (window_size step_size batch_size : Z)
  : result Epoch :=
  partition_sequences rnd
    (mkEpoch datadir flowdir train_seq_nos window_size step_size batch_size []).

(** ["{i}.flo".format(i=frame_no)] *)
Definition flo_name (frame_no : Z) : string := pretty frame_no +:+ ".flo".

(** [np.vstack(y, np.zeros(6))]: [np.vstack] has one positional parameter,
    and the call with two raises [TypeError] whatever the arrays are. *)
Definition np_vstack_two (y zeros : ndarray) : result ndarray := Raise TypeError.

(** [Epoch.get_sample] *)
Definition get_sample (self : Epoch) (window_idx : window)
  : result (ndarray * ndarray) :=
  let '(seq, (window_start, window_end)) := window_idx in
  let frame_nos := range_items window_start window_end 1 in
  let len_frames := Z.of_nat (length frame_nos) in
  let buff := len_frames <? window_size self in
  let missing_frames := range_items 0 (window_size self - len_frames) 1 in
  x ← mapM (fun frame_no => read_flow (flowdir self) seq (flo_name frame_no))
           frame_nos;
  x ← (if buff then
         match x with
         | [] => Raise IndexError
         | x0 :: _ =>
             let img_size := shape x0 in
             Ok (x ++ map (fun _ => np_zeros img_size) missing_frames)
         end
       else Ok x);
  x ← np_array x;
  raw ← odometry (datadir self) seq (Some frame_nos);
  y ← process_poses (poses raw);
  y ← (if buff
       then for_each (fun y _ => np_vstack_two y (np_zeros [6%nat])) y missing_frames
       else Ok y);
  Ok (x, y).

(** The loop of [get_batch]: up to [n] more samples. *)
Fixpoint get_batch_loop (n : nat) (self : Epoch) (x y : list ndarray)
  : result (list ndarray * list ndarray) * Epoch :=
  match n with
  | O => (Ok (x, y), self)
  | S n' =>
      if negb (is_complete self) then
        match list_pop (window_idxs self) with
        | Raise e => (Raise e, self)
        | Ok (window_idx, rest) =>
            let self := set_window_idxs rest self in
            match get_sample self window_idx with
            | Raise e => (Raise e, self)
            | Ok (sample_x, sample_y) =>
                get_batch_loop n' self (x ++ [sample_x]) (y ++ [sample_y])
            end
        end
      else get_batch_loop n' self x y
  end.

(** [Epoch.get_batch]: the batch, or the exception, and the object after the
    call. *)
Definition get_batch (self : Epoch) : result (ndarray * ndarray) * Epoch :=
  let '(r, self) := get_batch_loop (Z.to_nat (batch_size self)) self [] [] in
  ('(x, y) ← r; x ← np_array x; y ← np_array y; Ok (x, y), self).

(** The windows a call took from the pool, in the order it popped them. *)
Definition popped (before after : Epoch) : list window :=
  reverse (drop (length (window_idxs after)) (window_idxs before)).

(** Modelled from the spec: the training loop that drives an epoch is not
    part of [src/].  It is the loop of a caller that checks [is_complete()]
    before every [get_batch()], as the spec asks of callers: at most [fuel]
    calls, each recorded with the windows it popped. *)
Fixpoint run_epoch (fuel : nat) (self : Epoch)
  : result (list (ndarray * ndarray * list window)) * Epoch :=
  match fuel with
  | O => (Ok [], self)
  | S fuel' =>
      if is_complete self then (Ok [], self)
      else
        match get_batch self with
        | (Raise e, self') => (Raise e, self')
        | (Ok (x, y), self') =>
            let '(r, final) := run_epoch fuel' self' in
            (cons (x, y, popped self self') <$> r, final)
        end
  end.

(** *** Vocabulary of the statements *)

(** The window that starts at [s] in a sequence of [len_seq] frames. *)
Definition window_at (window_size len_seq : Z) (seq_no : string) (s : Z) : window :=
  (seq_no, (s, Z.min (s + window_size + 1) (len_seq + 1))).

(** [p] is the list of windows of the training sequence [seq_no]. *)
Definition partition_of (self : Epoch) (seq_no : string) (p : list window) : Prop :=
  exists dir, flowdir self !! seq_no = Some dir
    /\ sequence_windows (window_size self) (step_size self) seq_no
         (Z.of_nat (size dir)) = Ok p.

(** The windows the next [get_batch] pops, in the order it pops them: the
    last [min(batch_size, len(pool))] of the pool, from the end. *)
Definition next_windows (self : Epoch) : list window :=
  let pool := window_idxs self in
  let k := Nat.min (Z.to_nat (batch_size self)) (length pool) in
  reverse (drop (length pool - k) pool).

(** The number of samples in a batch array, and in the batches of a run. *)
Definition samples_in (x : ndarray) : nat := default 0%nat (np_len x).

Definition total_samples (calls : list (ndarray * ndarray * list window)) : nat :=
  sum_list (map (fun c => samples_in (fst (fst c))) calls).

(** The window [w] gives a sample whose arrays have the shapes [sx], [sy]. *)
Definition sample_shapes (self : Epoch) (sx sy : list nat) (w : window) : Prop :=
  exists x y, get_sample self w = Ok (x, y) /\ shape x = sx /\ shape y = sy.

End Epoch.

(** ** Example data *)

Definition bytes_of (l : list N) : list Byte.byte := omap Byte.of_N l.

(** [b'PIEH'] *)
Definition magic : list Byte.byte := [Byte.x50; Byte.x49; Byte.x45; Byte.x48].

(** A flow file of width 1 and height 1 holding the flow [(1.0, -2.5)]. *)
Definition flo_1x1 : list Byte.byte :=
  magic ++ bytes_of [1; 0; 0; 0; 1; 0; 0; 0; 0; 0; 128; 63; 0; 0; 32; 192]%N.

(** A file whose first four bytes are ['XXXX']. *)
Definition flo_XXXX : list Byte.byte :=
  bytes_of [88; 88; 88; 88; 1; 0; 0; 0; 1; 0; 0; 0; 0; 0; 128; 63; 0; 0; 32; 192]%N.

(** Sequence ["00"] has four flow files and ["01"] three. *)
Definition example_dir_00 : gmap string (list Byte.byte) :=
  {[ "1.flo" := flo_1x1; "2.flo" := flo_1x1; "3.flo" := flo_1x1; "4.flo" := flo_1x1 ]}.

Definition example_dir_01 : gmap string (list Byte.byte) :=
  {[ "1.flo" := flo_1x1; "2.flo" := flo_1x1; "3.flo" := flo_1x1 ]}.

Definition example_flowdir : flow_store :=
  {[ "00" := example_dir_00; "01" := example_dir_01 ]}.

(** The pose of a vehicle that has moved [x] along the first axis. *)
Definition moved (x : float) : mat4 :=
  ((1, 0, 0, x), (0, 1, 0, 0), (0, 0, 1, 0), (0, 0, 0, 1))%float.

Definition example_poses : gmap string (list mat4) :=
  {[ "00" := [moved 0; moved 1; moved 2; moved 3; moved 4];
     "01" := [moved 0; moved 1; moved 2; moved 3] ]}.

(** The mirror image in the plane of the first two axes: orthogonal, of
    determinant -1. *)
Definition reflection : mat3 := ((1, 0, 0), (0, 1, 0), (0, 0, -1))%float.

(** A quarter turn about the second axis: [r00 = r10 = 0]. *)
Definition quarter_pitch : mat3 := ((0, 0, 1), (0, 1, 0), (-1, 0, 0))%float.

(** [|det r - 1| < 1e-6] *)
Definition unit_determinant (r : mat3) : bool :=
  (abs (det3 r - 1) <? tolerance)%float.

(** [r] with its last row negated. *)
Definition negate_last_row (r : mat3) : mat3 :=
  let '(r0, r1, (r20, r21, r22)) := r in
  (r0, r1, (- r20, - r21, - r22))%float.

(** The epoch that [Epoch.__init__] builds from the example directories with
    windows of 2, steps of 1, batches of 2 and the draws [0, 1, 2, ...]. *)
Definition example_epoch : Epoch (dataset := pose_store) :=
  mkEpoch (example_poses : basedir (Dataset := pose_store)) example_flowdir
    ["00"; "01"] 2 1 2
    [("01", (1, 4)); ("00", (2, 5)); ("00", (1, 4))].

(** ** The module [batcher.py]

    Its [is_rotation_matrix], [rotation_matrix_to_euler_angles],
    [rectify_poses], [mat_to_pose_vector] and [get_stacked_rgbs] are the
    functions of [Epoch.py], word for word; the definitions above stand for
    both.  An image tree maps the path of a directory to its entries, each
    marked as a regular file or not. *)

Abbreviation image_tree := (gmap string (gmap string bool)).

Section Batcher.

Context {numerics : Numerics} {dataset : Dataset}.

(** [get_seq_total_frames(seq, basedir)].  Both parameters are required: a
    call that leaves [basedir] out, written [None] here, raises [TypeError]
    before the body runs. *)
Definition get_seq_total_frames (tree : image_tree) (seq : string)
    (basedir : option string) : result Z :=
  match basedir with
  | None => Raise TypeError
  | Some basedir =>
      let path := basedir +:+ "sequences/" +:+ seq +:+ "/image_2/" in
      match tree !! path with
      | None => Raise FileNotFoundError
      | Some entries =>
          Ok (Z.of_nat (length (filter (fun f => snd f = true)
                                       (map_to_list entries))) - 1)
      end
  end.

(** [process_poses(dataset)] of [batcher.py]: a list, not an array. *)
Definition batcher_process_poses (data : odometry_data image) : result (list ndarray) :=
  let poses := poses data in
  rectified_poses ← rectify_poses poses;
  mapM mat_to_pose_vector rectified_poses.

(** [random.choice(seq)]: [seq[randbelow(len(seq))]], the draw numbered
    [k]; an empty sequence raises [IndexError]. *)
Definition random_choice {A} (rnd : nat -> nat) (k : nat) (seq : list A) : result A :=
  match seq with
  | [] => Raise IndexError
  | _ => from_option Ok (Raise IndexError) (seq !! (rnd k mod length seq)%nat)
  end.

(** [random.randint(a, b)]: [a + randbelow(b - a + 1)]; an empty range
    raises [ValueError]. *)
Definition random_randint (rnd : nat -> nat) (k : nat) (a b : Z) : result Z :=
  if b <? a then Raise ValueError
  else Ok (a + Z.of_nat (rnd k mod Z.to_nat (b - a + 1))%nat).

(** [batcher(basedir, batch_frames, train_seqs)]; it calls
    [get_seq_total_frames(sequence)], with one argument. *)
Definition batcher (rnd : nat -> nat) (tree : image_tree) (base : basedir)
    (batch_frames : Z) (train_seqs : list string)
  : result (pixels * list ndarray) :=
  sequence ← random_choice rnd 0 train_seqs;
  max_frame ← get_seq_total_frames tree sequence None;
  first_frame ← random_randint rnd 1 0 (max_frame - batch_frames + 1);
  let last_frame := first_frame + batch_frames in
  data ← odometry base sequence (Some (range_items first_frame last_frame 1));
  stacked ← get_stacked_rgbs data (Some batch_frames);
  stacked ← np_vstack stacked;
  let x := np_array_batch stacked in
  y ← batcher_process_poses data;
  Ok (x, y).

(** [test_batch(basedir, seq)] of [batcher.py]; it calls
    [get_stacked_rgbs(dataset)], with one argument. *)
Definition batcher_test_batch (base : basedir) (seq : string)
  : result (pixels * list ndarray) :=
  data ← odometry base seq None;
  stacked ← get_stacked_rgbs data None;
  stacked ← np_vstack stacked;
  let x := np_array_batch stacked in
  y ← batcher_process_poses data;
  Ok (x, y).

End Batcher.

(** *** More vocabulary *)

(** The frame [f] is one of [range(window_start, window_end)]. *)
Definition in_window (w : string * (Z * Z)) (f : Z) : Prop :=
  fst (snd w) <= f < snd (snd w).

(** The number of windows of a sequence of [len_seq] frames, for a positive
    step. *)
Definition window_count (window_size step_size len_seq : Z) : Z :=
  if len_seq <=? window_size then 0
  else 1 + (len_seq - window_size - 1) / step_size.

(** [n] windows in batches of [b]: full batches, then the rest. *)
Definition batch_sizes (n b : nat) : list nat :=
  replicate (n / b) b ++ (if (n mod b =? 0)%nat then [] else [(n mod b)%nat]).

(** *** More example data *)

(** [float(n)] for a small integer. *)
Definition float_of_Z (n : Z) : float :=
  if n <? 0 then (- of_uint63 (Uint63.of_Z (- n)))%float
  else of_uint63 (Uint63.of_Z n).

(** An executable dataset with grey images as flat lists of pixels: a base
    directory maps a sequence to its poses and its image pairs, [frames]
    selects both by index; arrays of different sizes do not combine, and
    [dstack] interleaves two images pixel by pixel.  (For no image at all
    Python's [sum] is the integer 0; the instance gives the empty array.) *)
Definition flat_images_odometry
    (b : gmap string (list mat4 * list (list float * list float)))
    (seq : string) (frames : option (list Z))
  : result (odometry_data (list float)) :=
  match b !! seq with
  | None => Raise FileNotFoundError
  | Some (all_poses, all_rgb) =>
      match frames with
      | None => Ok (OdometryData all_poses all_rgb)
      | Some fs =>
          ps ← mapM (py_getitem all_poses) fs;
          imgs ← mapM (py_getitem all_rgb) fs;
          Ok (OdometryData ps imgs)
      end
  end.

Definition flat_pixels_op (op : float -> float -> float) (a b : list float)
  : result (list float) :=
  if bool_decide (length a = length b) then Ok (zip_with op a b)
  else Raise ValueError.

Definition flat_mean (rgbs : list (list float)) (n : Z) : result (list float) :=
  match rgbs with
  | [] => Ok []
  | first :: rest =>
      total ← for_each (flat_pixels_op PrimFloat.add) first rest;
      Ok (map (fun s => (s / float_of_Z n)%float) total)
  end.

Definition flat_dstack (a b : list float) : result (list float) :=
  if bool_decide (length a = length b)
  then Ok (concat (zip_with (fun x y => [x; y]) a b))
  else Raise ValueError.

Definition flat_images : Dataset :=
  {| basedir := gmap string (list mat4 * list (list float * list float));
     image := list float;
     pixels := list float;
     odometry := flat_images_odometry;
     pixels_of_image := fun i => i;
     mean_pixels := flat_mean;
     pixels_sub := flat_pixels_op PrimFloat.sub;
     np_dstack := flat_dstack;
     np_vstack := fun l => Ok (concat l);
     np_array_batch := fun a => a |}.

(** Three images of two pixels each, the right camera dark. *)
Definition example_images : odometry_data (list float) :=
  OdometryData [moved 0; moved 1; moved 2]
    [([1; 2], [0; 0]); ([3; 4], [0; 0]); ([5; 9], [0; 0])]%float.

(** A rotation block with a NaN in it, and a pose that cannot be inverted. *)
Definition nan_block : mat3 := ((nan, 0, 0), (0, 1, 0), (0, 0, 1))%float.

Definition flat_pose : mat4 :=
  ((1, 0, 0, 0), (0, 1, 0, 0), (0, 0, 0, 0), (0, 0, 0, 1))%float.

(** A pool whose middle window asks for frames 4, 5, 6 of a sequence of four
    flow files. *)
Definition broken_epoch : Epoch (dataset := pose_store) :=
  mkEpoch (example_poses : basedir (Dataset := pose_store)) example_flowdir
    ["00"; "01"] 2 1 2
    [("00", (1, 4)); ("00", (4, 7)); ("01", (1, 4))].

(** The example epoch with a batch size of zero. *)
Definition idle_epoch : Epoch (dataset := pose_store) :=
  mkEpoch (example_poses : basedir (Dataset := pose_store)) example_flowdir
    ["00"; "01"] 2 1 0
    [("01", (1, 4)); ("00", (2, 5)); ("00", (1, 4))].

(** An image directory with two frames. *)
Definition example_frames : gmap string bool :=
  {[ "000000.png" := true; "000001.png" := true ]}.

(** The float [x] is a NaN. *)
Definition not_a_number (x : float) : Prop := Prim2SF x = S754_nan.

(** * Properties *)

(** ** Results and lists *)

Lemma mapM_ok_length {A B} (f : A -> result B) (l : list A) (r : list B) :
  mapM f l = Ok r -> length r = length l.
Proof.
  revert r. induction l as [|a l IH]; intros r; simpl.
  - intros [= <-]. reflexivity.
  - destruct (f a) as [b|e]; simpl; [|discriminate].
    destruct (mapM f l) as [r'|e]; simpl; [|discriminate].
    intros [= <-]. simpl. f_equal. apply IH. reflexivity.
Qed.

Lemma mapM_ok_map {A B} (f : A -> result B) (g : A -> B) (l : list A) :
  (forall a, a ∈ l -> f a = Ok (g a)) -> mapM f l = Ok (map g l).
Proof.
  induction l as [|a l IH]; intros Hf; simpl; [reflexivity|].
  rewrite Hf by left. simpl. rewrite IH; [reflexivity|].
  intros b Hb. apply Hf. right. exact Hb.
Qed.

Lemma mapM_ok_Forall2 {A B} (f : A -> result B) (l : list A) (r : list B) :
  mapM f l = Ok r -> Forall2 (fun a b => f a = Ok b) l r.
Proof.
  revert r. induction l as [|a l IH]; intros r; simpl.
  - intros [= <-]. constructor.
  - destruct (f a) as [b|e] eqn:Hb; simpl; [|discriminate].
    destruct (mapM f l) as [r'|e]; simpl; [|discriminate].
    intros [= <-]. constructor; [exact Hb|]. apply IH. reflexivity.
Qed.

Lemma mapM_ok_exists {A B} (f : A -> result B) (l : list A) :
  Forall (fun a => is_ok (f a) = true) l -> exists r, mapM f l = Ok r.
Proof.
  induction 1 as [|a l Ha _ [r Hr]]; simpl; [eauto|].
  destruct (f a) as [b|e]; [|discriminate]. simpl. rewrite Hr. simpl. eauto.
Qed.

Lemma np_array_len (l : list ndarray) (a : ndarray) :
  np_array l = Ok a -> np_len a = Some (length l).
Proof.
  destruct l as [|x l]; simpl.
  - intros [= <-]. reflexivity.
  - destruct (forallb _ l); [|discriminate]. intros [= <-]. reflexivity.
Qed.

Lemma np_array_same_shape (s : list nat) (l : list ndarray) :
  Forall (fun a => shape a = s) l ->
  exists a, np_array l = Ok a /\ (l <> [] -> shape a = length l :: s).
Proof.
  intros Hl. destruct l as [|x l]; simpl.
  - eexists. split; [reflexivity|]. congruence.
  - inversion Hl as [|? ? Hx Hl']; subst.
    assert (forallb (fun b => bool_decide (shape b = shape x)) l = true) as ->.
    { apply forallb_forall. intros b Hb. apply bool_decide_eq_true.
      rewrite Forall_forall in Hl'. apply Hl'. apply list_elem_of_In. exact Hb. }
    eexists. split; [reflexivity|]. reflexivity.
Qed.

Ltac destruct_mat3 r :=
  let r00 := fresh "r00" in let r01 := fresh "r01" in let r02 := fresh "r02" in
  let r10 := fresh "r10" in let r11 := fresh "r11" in let r12 := fresh "r12" in
  let r20 := fresh "r20" in let r21 := fresh "r21" in let r22 := fresh "r22" in
  destruct r as [[[[r00 r01] r02] [[r10 r11] r12]] [[r20 r21] r22]].

Ltac destruct_mat4 m :=
  let v0 := fresh "v" in let v1 := fresh "v" in
  let v2 := fresh "v" in let v3 := fresh "v" in
  destruct m as [[[v0 v1] v2] v3];
  destruct v0 as [[[? ?] ?] ?]; destruct v1 as [[[? ?] ?] ?];
  destruct v2 as [[[? ?] ?] ?]; destruct v3 as [[[? ?] ?] ?].

(** ** Floats *)

(** [a <= b] excludes [b < a], also for infinities; a nan satisfies
    neither. *)
Lemma leb_not_ltb (a b : float) : (a <=? b)%float = true -> (b <? a)%float = false.
Proof.
  rewrite leb_spec, ltb_spec. unfold SFleb, SFltb.
  destruct (Prim2SF a) as [sa|sa| |sa ma ea], (Prim2SF b) as [sb|sb| |sb mb eb];
    simpl; try (destruct sa); try (destruct sb); try reflexivity; try discriminate.
  all: rewrite (Z.compare_antisym ea eb);
    destruct (ea ?= eb)%Z; simpl; try reflexivity; try discriminate.
  all: replace (PosDef.Pos.compare_cont Eq mb ma)
         with (CompOpp (PosDef.Pos.compare_cont Eq ma mb))
         by exact (Pos.compare_cont_antisym ma mb Eq);
    destruct (PosDef.Pos.compare_cont Eq ma mb); simpl; try reflexivity; discriminate.
Qed.

(** The product of two negated floats is the product of the floats. *)
Lemma mul_opp_opp (a b : float) : (- a * - b)%float = (a * b)%float.
Proof.
  apply Prim2SF_inj. rewrite !mul_spec, !opp_spec.
  destruct (Prim2SF a) as [sa|sa| |sa ma ea], (Prim2SF b) as [sb|sb| |sb mb eb];
    simpl; try reflexivity; destruct sa, sb; reflexivity.
Qed.

Section PoseMath.
Context {numerics : Numerics}.

Lemma euler_angles_shape r a :
  rotation_matrix_to_euler_angles r = Ok a -> shape a = [3%nat].
Proof.
  unfold rotation_matrix_to_euler_angles.
  destruct (negb (is_rotation_matrix r)); [discriminate|].
  destruct_mat3 r. 
  destruct (negb _); intros [= <-]; reflexivity.
Qed.

Lemma mat_to_pose_vector_shape pose v :
  mat_to_pose_vector pose = Ok v -> shape v = [6%nat].
Proof.
  unfold mat_to_pose_vector.
  destruct (rotation_matrix_to_euler_angles _) as [a|e] eqn:Ha; simpl; [|discriminate].
  apply euler_angles_shape in Ha. unfold np_concatenate. rewrite Ha.
  destruct_mat4 pose. simpl. intros [= <-]. reflexivity.
Qed.

Lemma mat_to_pose_vector_ok pose :
  is_rotation_matrix (rotation_block pose) = true ->
  is_ok (mat_to_pose_vector pose) = true.
Proof.
  intros Hr. unfold mat_to_pose_vector, rotation_matrix_to_euler_angles.
  rewrite Hr. simpl. destruct (rotation_block pose) as [[[[r00 r01] r02] [[r10 r11] r12]] [[r20 r21] r22]].
  destruct_mat4 pose. destruct (negb _); reflexivity.
Qed.

Lemma rectify_poses_cons p0 ps m :
  inv p0 = Ok m -> rectify_poses (p0 :: ps) = Ok (map (np_dot4 m) ps).
Proof.
  intros Hm. simpl. apply mapM_ok_map. intros x _. rewrite Hm. reflexivity.
Qed.

Lemma rectify_poses_length poses r :
  rectify_poses poses = Ok r -> length r = (length poses - 1)%nat.
Proof.
  destruct poses as [|p0 ps]; simpl; [discriminate|].
  intros H. apply mapM_ok_length in H. lia.
Qed.

Lemma process_poses_shape p0 ps y :
  process_poses (p0 :: ps) = Ok y ->
  np_len y = Some (length ps) /\ (ps <> [] -> shape y = [length ps; 6%nat]).
Proof.
  unfold process_poses.
  destruct (rectify_poses (p0 :: ps)) as [r|e] eqn:Hr; simpl; [|discriminate].
  apply rectify_poses_length in Hr. simpl in Hr.
  destruct (mapM mat_to_pose_vector r) as [vs|e] eqn:Hvs; simpl; [|discriminate].
  pose proof (mapM_ok_length _ _ _ Hvs) as Hlen.
  apply mapM_ok_Forall2 in Hvs.
  assert (Forall (fun v => shape v = [6%nat]) vs) as Hshape.
  { clear -Hvs. induction Hvs; constructor; eauto using mat_to_pose_vector_shape. }
  intros Hy. split.
  - apply np_array_len in Hy. rewrite Hy. f_equal. lia.
  - intros Hne. destruct (np_array_same_shape _ _ Hshape) as (a & Ha & Hs).
    rewrite Ha in Hy. injection Hy as <-. rewrite Hs.
    + f_equal. lia.
    + intros ->. destruct ps; simpl in *; [congruence|lia].
Qed.

Lemma process_poses_ok p0 ps m :
  inv p0 = Ok m ->
  Forall (fun p => is_rotation_matrix (rotation_block (np_dot4 m p)) = true) ps ->
  is_ok (process_poses (p0 :: ps)) = true.
Proof.
  intros Hm Hrot. unfold process_poses.
  rewrite (rectify_poses_cons _ _ _ Hm). simpl.
  destruct (mapM_ok_exists mat_to_pose_vector (map (np_dot4 m) ps)) as [vs Hvs].
  { rewrite Forall_map. eapply Forall_impl; [exact Hrot|].
    intros p Hp. apply mat_to_pose_vector_ok. exact Hp. }
  rewrite Hvs. simpl.
  apply mapM_ok_Forall2 in Hvs.
  assert (Forall (fun v => shape v = [6%nat]) vs) as Hshape.
  { clear -Hvs. induction Hvs; constructor; eauto using mat_to_pose_vector_shape. }
  destruct (np_array_same_shape _ _ Hshape) as (a & -> & _). reflexivity.
Qed.

End PoseMath.


(** ** Pose arithmetic *)

Section PoseTheorems.
Context {numerics : Numerics} {dataset : Dataset}.

(** C5. For poses [p0, p1, ..., pn] with [p0] inverted by [inv] to [m],
    [rectify_poses] returns [m·p1, ..., m·pn]: [n] poses, [p0] dropped, the
    first one [m·p1]. *)
Theorem rectify_poses_relative (p0 : mat4) (ps : list mat4) (m : mat4) :
  inv p0 = Ok m ->
  exists rectified,
    rectify_poses (p0 :: ps) = Ok rectified
    /\ rectified = map (np_dot4 m) ps
    /\ length rectified = length ps
    /\ head rectified = np_dot4 m <$> head ps.
Proof.
  intros Hm. exists (map (np_dot4 m) ps). split; [|split; [|split]].
  - apply rectify_poses_cons. exact Hm.
  - reflexivity.
  - apply length_map.
  - destruct ps; reflexivity.
Qed.

(** C6. For a matrix [r] that passes [is_rotation_matrix], with
    [sy = sqrt(r00² + r10²)]: when [sy >= 1e-6] the angles are
    [(atan2(r21, r22), atan2(-r20, sy), atan2(r10, r00))], and when
    [sy < 1e-6] they are [(atan2(-r12, r11), atan2(-r20, sy), 0)]. *)
Theorem euler_angles_by_branch (r00 r01 r02 r10 r11 r12 r20 r21 r22 : float) :
  let r : mat3 := ((r00, r01, r02), (r10, r11, r12), (r20, r21, r22)) in
  let sy := PrimFloat.sqrt (r00 * r00 + r10 * r10)%float in
  is_rotation_matrix r = true ->
  ((tolerance <=? sy)%float = true ->
     rotation_matrix_to_euler_angles r
     = Ok (np_array1 [atan2 r21 r22; atan2 (- r20)%float sy; atan2 r10 r00]))
  /\ ((sy <? tolerance)%float = true ->
     rotation_matrix_to_euler_angles r
     = Ok (np_array1 [atan2 (- r12)%float r11; atan2 (- r20)%float sy; 0%float])).
Proof.
  intros r sy Hr. unfold rotation_matrix_to_euler_angles.
  rewrite Hr. simpl. fold sy. split; intros Hsy.
  - apply leb_not_ltb in Hsy. rewrite Hsy. reflexivity.
  - rewrite Hsy. reflexivity.
Qed.

(** C4. [process_poses] on [n + 1] poses returns, when it returns, an array
    of [n] rows, of shape [(n, 6)] for positive [n]; it returns whenever
    [inv] inverts the first pose and every rectified rotation block passes
    [is_rotation_matrix].  [test_batch] never reaches it: its call of
    [get_stacked_rgbs] with one argument raises [TypeError] as soon as the
    sequence is loaded. *)
Theorem process_poses_count :
  (forall p0 ps y, process_poses (p0 :: ps) = Ok y ->
     np_len y = Some (length ps) /\ (ps <> [] -> shape y = [length ps; 6%nat]))
  /\ (forall p0 ps m, inv p0 = Ok m ->
        Forall (fun p => is_rotation_matrix (rotation_block (np_dot4 m p)) = true) ps ->
        is_ok (process_poses (p0 :: ps)) = true)
  /\ (forall base seq, is_ok (test_batch base seq) = false)
  /\ (forall base seq data, odometry base seq None = Ok data ->
        test_batch base seq = Raise TypeError).
Proof.
  split; [|split; [|split]].
  - apply process_poses_shape.
  - apply process_poses_ok.
  - intros base seq. unfold test_batch.
    destruct (odometry base seq None); reflexivity.
  - intros base seq data Hd. unfold test_batch. rewrite Hd. reflexivity.
Qed.

End PoseTheorems.

(** C9, on the code.  [is_rotation_matrix] tests orthogonality and nothing
    else: the reflection [diag(1, 1, -1)] passes it although its determinant
    is -1, a whole unit away from 1, and negating the last row of any
    matrix, which turns a rotation into a reflection, never changes the
    answer. *)
Theorem is_rotation_matrix_accepts_reflections :
  is_rotation_matrix reflection = true
  /\ det3 reflection = (-1)%float
  /\ unit_determinant reflection = false
  /\ (forall r, is_rotation_matrix (negate_last_row r) = is_rotation_matrix r).
Proof.
  split; [|split; [|split]]; try (vm_compute; reflexivity).
  intros r. unfold is_rotation_matrix. destruct_mat3 r. simpl.
  rewrite !mul_opp_opp. reflexivity.
Qed.

Lemma rectify_poses_relative_witness :
  exists rectified,
    rectify_poses (numerics := axes_numerics) [moved 1; moved 2; moved 4]
    = Ok rectified
    /\ rectified = map (np_dot4 (moved (-1))) [moved 2; moved 4]
    /\ length rectified = 2%nat
    /\ head rectified = Some (np_dot4 (moved (-1)) (moved 2)).
Proof.
  apply (rectify_poses_relative (numerics := axes_numerics)
           (moved 1) [moved 2; moved 4] (moved (-1))).
  vm_compute. reflexivity.
Defined.

Lemma euler_angles_by_branch_witness :
  rotation_matrix_to_euler_angles (numerics := axes_numerics) np_identity3
  = Ok (np_array1 [0; -0; 0]%float)
  /\ rotation_matrix_to_euler_angles (numerics := axes_numerics) quarter_pitch
     = Ok (np_array1 [-0; half_pi; 0]%float).
Proof.
  split.
  - apply (euler_angles_by_branch (numerics := axes_numerics)
             1 0 0 0 1 0 0 0 1); vm_compute; reflexivity.
  - apply (euler_angles_by_branch (numerics := axes_numerics)
             0 0 1 0 1 0 (-1) 0 0); vm_compute; reflexivity.
Defined.

Lemma process_poses_count_witness :
  is_ok (process_poses (numerics := axes_numerics) [moved 1; moved 2; moved 4]) = true
  /\ test_batch (numerics := axes_numerics) (dataset := pose_store)
       example_poses "00" = Raise TypeError.
Proof.
  split.
  - apply (proj1 (proj2 (process_poses_count (numerics := axes_numerics)
                           (dataset := pose_store)))
             (moved 1) [moved 2; moved 4] (moved (-1))).
    + vm_compute. reflexivity.
    + repeat constructor.
  - eapply (proj2 (proj2 (proj2 (process_poses_count (numerics := axes_numerics)
                                    (dataset := pose_store))))).
    vm_compute. reflexivity.
Defined.


(** ** Ranges *)

Lemma map_fmap {A B} (f : A -> B) (l : list A) : map f l = f <$> l.
Proof. induction l as [|a l IH]; csimpl; [reflexivity|]. rewrite IH. reflexivity. Qed.

Lemma range_length_nonneg lo hi step : 0 <= range_length lo hi step.
Proof.
  unfold range_length.
  destruct ((0 <? step) && (lo <? hi)) eqn:Hup.
  - apply andb_true_iff in Hup as [Hs Hl]. apply Z.ltb_lt in Hs, Hl.
    assert (0 <= (hi - 1 - lo) / step) by (apply Z.div_pos; lia). lia.
  - destruct ((step <? 0) && (hi <? lo)) eqn:Hdown; [|lia].
    apply andb_true_iff in Hdown as [Hs Hl]. apply Z.ltb_lt in Hs, Hl.
    assert (0 <= (lo - 1 - hi) / - step) by (apply Z.div_pos; lia). lia.
Qed.

Lemma range_items_length start stop step :
  Z.of_nat (length (range_items start stop step)) = range_length start stop step.
Proof.
  unfold range_items. rewrite length_map, length_seq.
  apply Z2Nat.id, range_length_nonneg.
Qed.

Lemma range_items_lookup start stop step (i : nat) (x : Z) :
  range_items start stop step !! i = Some x <->
  x = start + Z.of_nat i * step /\ Z.of_nat i < range_length start stop step.
Proof.
  unfold range_items. rewrite map_fmap, list_lookup_fmap.
  pose proof (range_length_nonneg start stop step) as Hn.
  destruct (seq 0 (Z.to_nat (range_length start stop step)) !! i) as [k|] eqn:Hk; simpl.
  - apply lookup_seq in Hk as [-> Hlt]. simpl. split.
    + intros [= <-]. split; [reflexivity|lia].
    + intros [-> _]. reflexivity.
  - split; [discriminate|]. intros [_ Hlt].
    apply lookup_ge_None in Hk. rewrite length_seq in Hk. lia.
Qed.

Lemma range_items_NoDup start stop step :
  step <> 0 -> NoDup (range_items start stop step).
Proof.
  intros Hstep. unfold range_items. rewrite map_fmap.
  apply NoDup_fmap_2; [|apply NoDup_seq].
  intros i j Hij. nia.
Qed.

(** The length of [range(1, hi, step)] for a positive step. *)
Lemma range_length_from_one hi step (i : Z) :
  0 < step -> 0 <= i ->
  (i < range_length 1 hi step <-> 1 + i * step < hi).
Proof.
  intros Hstep Hi. unfold range_length.
  assert ((0 <? step) = true) as -> by (apply Z.ltb_lt; lia). simpl.
  destruct (1 <? hi) eqn:Hhi.
  - apply Z.ltb_lt in Hhi. split; intros H.
    + assert (i <= (hi - 1 - 1) / step) as Hle by lia.
      assert (step * ((hi - 1 - 1) / step) <= hi - 1 - 1)
        by (apply Z.mul_div_le; lia).
      nia.
    + assert (i <= (hi - 1 - 1) / step); [|lia].
      apply Z.div_le_lower_bound; lia.
  - apply Z.ltb_ge in Hhi.
    assert ((step <? 0) = false) as -> by (apply Z.ltb_ge; lia). simpl.
    split; intros H; nia.
Qed.

(** The length of [range(lo, hi)]. *)
Lemma range_length_unit lo hi : range_length lo hi 1 = Z.max 0 (hi - lo).
Proof.
  unfold range_length. simpl. destruct (lo <? hi) eqn:H.
  - apply Z.ltb_lt in H. rewrite Z.div_1_r. lia.
  - apply Z.ltb_ge in H. lia.
Qed.

(** ** The shuffle *)

Lemma list_swap_perm {A} (x : list A) (i j : nat) : list_swap x i j ≡ₚ x.
Proof.
  unfold list_swap.
  destruct (x !! i) as [a|] eqn:Hi; [|reflexivity].
  destruct (x !! j) as [b|] eqn:Hj; [|reflexivity].
  apply Permutation_insert_swap; assumption.
Qed.

Lemma shuffle_from_perm {A} rnd (k i : nat) (x : list A) :
  shuffle_from rnd k i x ≡ₚ x.
Proof.
  revert k x. induction i as [|i IH]; intros k x; simpl; [reflexivity|].
  rewrite IH. apply list_swap_perm.
Qed.

Lemma random_shuffle_perm {A} rnd (x : list A) : random_shuffle rnd x ≡ₚ x.
Proof. apply shuffle_from_perm. Qed.

(** ** The partition *)

Section Partition.
Context {dataset : Dataset}.


Lemma sequence_windows_ok ws step seq_no len_seq :
  step <> 0 ->
  sequence_windows ws step seq_no len_seq
  = Ok (map (window_at ws len_seq seq_no) (range_items 1 (len_seq - ws + 1) step)).
Proof.
  intros Hstep. unfold sequence_windows, py_range.
  destruct (step =? 0) eqn:H; [apply Z.eqb_eq in H; contradiction|]. reflexivity.
Qed.

Lemma sequence_windows_inv ws step seq_no len_seq p :
  sequence_windows ws step seq_no len_seq = Ok p ->
  step <> 0 /\
  p = map (window_at ws len_seq seq_no) (range_items 1 (len_seq - ws + 1) step).
Proof.
  unfold sequence_windows, py_range.
  destruct (step =? 0) eqn:H; simpl; [discriminate|].
  apply Z.eqb_neq in H. intros [= <-]. split; [exact H|reflexivity].
Qed.


Lemma partition_loop_inv self seq_nos idxs r :
  partition_loop self seq_nos idxs = Ok r ->
  exists parts, Forall2 (partition_of self) seq_nos parts /\ r = idxs ++ concat parts.
Proof.
  revert idxs. induction seq_nos as [|seq_no rest IH]; intros idxs; simpl.
  - intros [= <-]. exists []. split; [constructor|]. simpl. rewrite app_nil_r. reflexivity.
  - destruct (flowdir self !! seq_no) as [dir|] eqn:Hdir; [|discriminate].
    destruct (sequence_windows _ _ _ _) as [p|e] eqn:Hp; simpl; [|discriminate].
    intros H. apply IH in H as (parts & Hparts & ->).
    exists (p :: parts). split.
    + constructor; [|exact Hparts]. exists dir. split; assumption.
    + simpl. rewrite app_assoc. reflexivity.
Qed.

Lemma partition_loop_ok self seq_nos idxs parts :
  Forall2 (partition_of self) seq_nos parts ->
  partition_loop self seq_nos idxs = Ok (idxs ++ concat parts).
Proof.
  intros H. revert idxs. induction H as [|seq_no p rest parts (dir & Hdir & Hp) _ IH];
    intros idxs; simpl.
  - rewrite app_nil_r. reflexivity.
  - rewrite Hdir, Hp. simpl. rewrite IH, app_assoc. reflexivity.
Qed.

Lemma Epoch_init_inv rnd dd fd seqs ws step bs e :
  Epoch_init rnd dd fd seqs ws step bs = Ok e ->
  datadir e = dd /\ flowdir e = fd /\ train_seq_nos e = seqs
  /\ window_size e = ws /\ step_size e = step /\ batch_size e = bs
  /\ exists parts, Forall2 (partition_of e) seqs parts
       /\ window_idxs e ≡ₚ concat parts.
Proof.
  unfold Epoch_init, partition_sequences.
  destruct (partition_loop _ _ _) as [idxs|err] eqn:Hloop; simpl; [|discriminate].
  intros [= <-]. simpl. repeat (split; [reflexivity|]).
  apply partition_loop_inv in Hloop as (parts & Hparts & ->).
  exists parts. split; [exact Hparts|]. simpl. apply random_shuffle_perm.
Qed.

End Partition.


Section PartitionTheorems.
Context {numerics : Numerics} {dataset : Dataset}.

(** C3. For a sequence of [len_seq] frames and a positive step, the windows
    are [(seq_no, (s, min(s + window_size + 1, len_seq + 1)))] for [s]
    running over the starts [1, 1 + step_size, 1 + 2*step_size, ...], in
    this order, and the starts are exactly those with
    [s <= len_seq - window_size]; for 10 frames, windows of 4 and steps of
    2 they are 1, 3 and 5. *)
Theorem partition_starts (window_size step_size len_seq : Z) (seq_no : string) :
  0 < step_size ->
  exists starts,
    sequence_windows window_size step_size seq_no len_seq
    = Ok (map (fun s => (seq_no, (s, Z.min (s + window_size + 1) (len_seq + 1))))
              starts)
    /\ (forall (i : nat) s, starts !! i = Some s ->
          s = 1 + Z.of_nat i * step_size /\ 1 <= s <= len_seq - window_size)
    /\ (forall k, 0 <= k -> 1 + k * step_size <= len_seq - window_size ->
          starts !! Z.to_nat k = Some (1 + k * step_size))
    /\ sequence_windows 4 2 seq_no 10
       = Ok [(seq_no, (1, 6)); (seq_no, (3, 8)); (seq_no, (5, 10))].
Proof.
  intros Hstep.
  exists (range_items 1 (len_seq - window_size + 1) step_size).
  split; [|split; [|split]].
  - apply sequence_windows_ok. lia.
  - intros i s Hs. apply range_items_lookup in Hs as [-> Hlt].
    apply range_length_from_one in Hlt; [|lia|lia]. split; [reflexivity|]. nia.
  - intros k Hk Hle. apply range_items_lookup. rewrite Z2Nat.id by lia.
    split; [reflexivity|]. apply range_length_from_one; lia.
  - reflexivity.
Qed.

Lemma sequence_windows_short ws step seq_no len_seq :
  0 < step -> len_seq <= ws -> sequence_windows ws step seq_no len_seq = Ok [].
Proof.
  intros Hstep Hlen. rewrite sequence_windows_ok by lia.
  assert (range_items 1 (len_seq - ws + 1) step = []) as ->; [|reflexivity].
  apply length_zero_iff_nil. apply Nat2Z.inj. rewrite range_items_length.
  pose proof (range_length_nonneg 1 (len_seq - ws + 1) step) as Hge.
  destruct (Z.eq_dec (range_length 1 (len_seq - ws + 1) step) 0) as [->|Hne];
    [reflexivity|].
  assert (0 < range_length 1 (len_seq - ws + 1) step) as Hpos by lia.
  apply range_length_from_one in Hpos; lia.
Qed.

Lemma get_batch_loop_complete n (self : Epoch) x y :
  window_idxs self = [] -> get_batch_loop n self x y = (Ok (x, y), self).
Proof.
  intros Hnil. induction n as [|n IH]; simpl; [reflexivity|].
  unfold is_complete. rewrite Hnil. simpl. exact IH.
Qed.

Lemma get_batch_complete (self : Epoch) :
  window_idxs self = [] ->
  get_batch self = (Ok (NdArray [0%nat] [], NdArray [0%nat] []), self).
Proof.
  intros Hnil. unfold get_batch.
  rewrite get_batch_loop_complete by exact Hnil. reflexivity.
Qed.

(** C10. With a positive step, if every training sequence has at most
    [window_size] frames then the epoch is built with an empty pool:
    [is_complete()] is true at once and [get_batch()] returns the empty
    batch and leaves the epoch as it is. *)
Theorem short_sequences_empty_epoch rnd (dd : basedir) (fd : flow_store)
    (seqs : list string) (ws step bs : Z) :
  0 < step ->
  Forall (fun seq_no => exists dir, fd !! seq_no = Some dir
                          /\ Z.of_nat (size dir) <= ws) seqs ->
  exists e,
    Epoch_init rnd dd fd seqs ws step bs = Ok e
    /\ window_idxs e = []
    /\ is_complete e = true
    /\ get_batch e = (Ok (NdArray [0%nat] [], NdArray [0%nat] []), e).
Proof.
  intros Hstep Hshort.
  set (e0 := mkEpoch dd fd seqs ws step bs []).
  assert (Forall2 (partition_of e0) seqs (map (fun _ => []) seqs)) as Hparts.
  { clear -Hstep Hshort. induction Hshort as [|seq_no rest (dir & Hdir & Hle) _ IH];
      simpl; constructor; [|exact IH].
    exists dir. split; [exact Hdir|]. simpl. apply sequence_windows_short; assumption. }
  assert (concat (map (fun _ : string => @nil window) seqs) = []) as Hnil.
  { clear. induction seqs; simpl; [reflexivity|assumption]. }
  exists (set_window_idxs [] e0). split; [|split; [|split]].
  - unfold Epoch_init, partition_sequences. fold e0.
    change (train_seq_nos e0) with seqs. change (window_idxs e0) with (@nil window).
    rewrite (partition_loop_ok e0 seqs [] _ Hparts). simpl. rewrite Hnil. reflexivity.
  - reflexivity.
  - reflexivity.
  - apply get_batch_complete. reflexivity.
Qed.

End PartitionTheorems.

Lemma partition_starts_witness :
  exists starts,
    sequence_windows 5 5 "00" 12
    = Ok (map (fun s => ("00", (s, Z.min (s + 5 + 1) (12 + 1)))) starts)
    /\ (forall (i : nat) s, starts !! i = Some s ->
          s = 1 + Z.of_nat i * 5 /\ 1 <= s <= 12 - 5)
    /\ (forall k, 0 <= k -> 1 + k * 5 <= 12 - 5 ->
          starts !! Z.to_nat k = Some (1 + k * 5))
    /\ sequence_windows 4 2 "00" 10
       = Ok [("00", (1, 6)); ("00", (3, 8)); ("00", (5, 10))].
Proof. apply (partition_starts 5 5 12 "00"). lia. Defined.

Lemma short_sequences_empty_epoch_witness :
  exists e,
    Epoch_init (dataset := pose_store) (fun k => k) example_poses example_flowdir
      ["00"; "01"] 4 1 2 = Ok e
    /\ window_idxs e = []
    /\ is_complete e = true
    /\ get_batch (numerics := axes_numerics) e
       = (Ok (NdArray [0%nat] [], NdArray [0%nat] []), e).
Proof.
  apply (short_sequences_empty_epoch (numerics := axes_numerics)
           (dataset := pose_store)); [lia|].
  repeat constructor.
  - exists example_dir_00. split; [vm_compute; reflexivity|]. vm_compute. discriminate.
  - exists example_dir_01. split; [vm_compute; reflexivity|]. vm_compute. discriminate.
Defined.


(** ** Samples *)

Section Samples.
Context {numerics : Numerics} {dataset : Dataset}.

Lemma get_sample_config (self : Epoch) idxs w :
  get_sample (set_window_idxs idxs self) w = get_sample self w.
Proof. reflexivity. Qed.

Lemma get_sample_untruncated (self : Epoch) seq lo hi x y :
  window_size self <= Z.of_nat (length (range_items lo hi 1)) ->
  get_sample self (seq, (lo, hi)) = Ok (x, y) ->
  np_len x = Some (length (range_items lo hi 1))
  /\ forall raw, odometry (datadir self) seq (Some (range_items lo hi 1)) = Ok raw ->
       np_len y = Some (length (poses raw) - 1)%nat.
Proof.
  intros Hfull. unfold get_sample.
  assert ((Z.of_nat (length (range_items lo hi 1)) <? window_size self) = false)
    as -> by (apply Z.ltb_ge; exact Hfull).
  destruct (mapM _ (range_items lo hi 1)) as [xs|e] eqn:Hxs; simpl; [|discriminate].
  destruct (np_array xs) as [x'|e] eqn:Hx; simpl; [|discriminate].
  destruct (odometry _ _ _) as [raw|e] eqn:Hraw; simpl; [|discriminate].
  destruct (process_poses (poses raw)) as [y'|e] eqn:Hy; simpl; [|discriminate].
  intros [= <- <-]. split.
  - apply np_array_len in Hx. apply mapM_ok_length in Hxs. congruence.
  - intros raw' [= <-]. destruct (poses raw) as [|p0 ps]; [discriminate|].
    apply process_poses_shape in Hy as [Hy _]. rewrite Hy. simpl. f_equal. lia.
Qed.

Lemma get_sample_truncated (self : Epoch) seq lo hi :
  Z.of_nat (length (range_items lo hi 1)) < window_size self ->
  is_ok (get_sample self (seq, (lo, hi))) = false.
Proof.
  intros Hshort. unfold get_sample.
  assert ((Z.of_nat (length (range_items lo hi 1)) <? window_size self) = true)
    as -> by (apply Z.ltb_lt; exact Hshort).
  destruct (mapM _ (range_items lo hi 1)) as [xs|e]; simpl; [|reflexivity].
  destruct xs as [|x0 xs]; simpl; [reflexivity|].
  destruct (forallb _ _); simpl; [|reflexivity].
  destruct (odometry _ _ _) as [raw|e]; simpl; [|reflexivity].
  destruct (process_poses (poses raw)) as [y'|e]; simpl; [|reflexivity].
  destruct (range_items 0 (window_size self - Z.of_nat (length (range_items lo hi 1))) 1)
    as [|i rest] eqn:Hmissing; [|reflexivity].
  apply (f_equal (fun l => Z.of_nat (length l))) in Hmissing.
  rewrite range_items_length, range_length_unit in Hmissing. simpl in Hmissing. lia.
Qed.

(** The windows in the pool of a new epoch, for a positive step. *)
Lemma pool_windows rnd dd fd seqs ws step bs (e : Epoch) w :
  0 < step ->
  Epoch_init rnd dd fd seqs ws step bs = Ok e ->
  w ∈ window_idxs e ->
  exists seq_no dir s,
    fd !! seq_no = Some dir /\ 1 <= s <= Z.of_nat (size dir) - ws
    /\ w = (seq_no, (s, s + ws + 1)).
Proof.
  intros Hstep Hinit Hw.
  apply Epoch_init_inv in Hinit
    as (_ & Hfd & _ & Hws & Hst & _ & parts & Hparts & Hperm).
  rewrite Hperm in Hw. clear Hperm.
  induction Hparts as [|seq_no p rest parts (dir & Hdir & Hp) _ IH]; simpl in Hw.
  - inversion Hw.
  - apply elem_of_app in Hw as [Hw|Hw]; [|exact (IH Hw)].
    rewrite Hfd in Hdir. rewrite Hws, Hst in Hp.
    apply sequence_windows_inv in Hp as [_ ->].
    rewrite map_fmap in Hw. apply list_elem_of_fmap in Hw as (s & -> & Hs).
    apply list_elem_of_lookup in Hs as [i Hi].
    apply range_items_lookup in Hi as [-> Hlt].
    apply range_length_from_one in Hlt; [|lia|lia].
    exists seq_no, dir, (1 + Z.of_nat i * step). split; [exact Hdir|].
    split; [nia|]. unfold window_at. do 2 f_equal. nia.
Qed.

(** C1, on the code.  For a window from the pool of a new epoch (positive
    window size and step) the bounds are [(s, s + window_size + 1)], never
    cut, and a sample that is returned has [window_size + 1] flow frames in
    [x], one more than the [len(poses) - 1] rows of [y].  For a window of
    fewer than [window_size] frames, the padding of [y] raises and no sample
    is returned. *)
Theorem get_sample_window_lengths rnd (dd : basedir) (fd : flow_store)
    (seqs : list string) (ws step bs : Z) (e : Epoch) (w : window) :
  0 < ws -> 0 < step ->
  Epoch_init rnd dd fd seqs ws step bs = Ok e ->
  w ∈ window_idxs e ->
  (exists seq_no s, w = (seq_no, (s, s + ws + 1))
     /\ forall x y, get_sample e w = Ok (x, y) ->
          np_len x = Some (Z.to_nat ws + 1)%nat
          /\ forall raw,
               odometry dd seq_no (Some (range_items s (s + ws + 1) 1)) = Ok raw ->
               np_len y = Some (length (poses raw) - 1)%nat)
  /\ (forall seq_no lo hi,
        Z.of_nat (length (range_items lo hi 1)) < ws ->
        is_ok (get_sample e (seq_no, (lo, hi))) = false).
Proof.
  intros Hws Hstep Hinit Hw.
  destruct (pool_windows _ _ _ _ _ _ _ _ _ Hstep Hinit Hw)
    as (seq_no & dir & s & _ & _ & ->).
  apply Epoch_init_inv in Hinit as (Hdd & _ & _ & He & _).
  assert (Z.of_nat (length (range_items s (s + ws + 1) 1)) = ws + 1) as Hlen.
  { rewrite range_items_length, range_length_unit. lia. }
  split.
  - exists seq_no, s. split; [reflexivity|]. intros x y Hxy.
    apply get_sample_untruncated in Hxy as [Hx Hy]; [|rewrite He; lia].
    split.
    + rewrite Hx. f_equal. lia.
    + intros raw Hraw. apply Hy. rewrite Hdd. exact Hraw.
  - intros seq_no' lo hi Hshort. apply get_sample_truncated. rewrite He. exact Hshort.
Qed.

End Samples.


(** ** Batches *)

Section Batches.
Context {numerics : Numerics} {dataset : Dataset}.

Lemma list_pop_snoc {A} (l : list A) (a : A) : list_pop (l ++ [a]) = Ok (a, l).
Proof. unfold list_pop. rewrite last_snoc, removelast_last. reflexivity. Qed.

Lemma is_complete_nil (self : Epoch) : is_complete self = true <-> window_idxs self = [].
Proof.
  unfold is_complete. destruct (window_idxs self); simpl; split; congruence.
Qed.

Lemma set_window_idxs_id (self : Epoch) : set_window_idxs (window_idxs self) self = self.
Proof. destruct self. reflexivity. Qed.

(** What the loop returns when it returns: [min(n, len(pool))] samples more,
    taken from the end of the pool. *)
Lemma get_batch_loop_inv n (self : Epoch) x y x' y' self' :
  get_batch_loop n self x y = (Ok (x', y'), self') ->
  let k := Nat.min n (length (window_idxs self)) in
  length x' = (length x + k)%nat /\ length y' = (length y + k)%nat
  /\ self' = set_window_idxs (take (length (window_idxs self) - k) (window_idxs self)) self.
Proof.
  revert self x y. induction n as [|n IH]; intros self x y H; cbv zeta.
  - injection H as <- <- <-.
    rewrite Nat.min_0_l, Nat.sub_0_r, firstn_all, set_window_idxs_id.
    repeat split; lia.
  - simpl in H. destruct (is_complete self) eqn:Hc; simpl in H.
    + apply is_complete_nil in Hc. rewrite get_batch_loop_complete in H by exact Hc.
      injection H as <- <- <-. rewrite Hc, Nat.min_0_r. simpl.
      rewrite <- Hc at 1. rewrite set_window_idxs_id. repeat split; lia.
    + destruct (window_idxs self) as [|w0 l0] eqn:Hpool using rev_ind.
      { apply is_complete_nil in Hpool. congruence. }
      clear IHl0. rewrite list_pop_snoc in H.
      destruct (get_sample _ w0) as [[sx sy]|e]; [|discriminate].
      apply IH in H. cbv zeta in H.
      change (window_idxs (set_window_idxs l0 self)) with l0 in H.
      destruct H as (Hx & Hy & Hs).
      rewrite !length_app in *. cbn [length] in *.
      replace (Nat.min (S n) (length l0 + 1)) with (S (Nat.min n (length l0))) by lia.
      replace (length l0 + 1 - S (Nat.min n (length l0)))%nat
        with (length l0 - Nat.min n (length l0))%nat by lia.
      rewrite take_app_le by lia.
      split; [lia|split; [lia|]]. rewrite Hs. reflexivity.
Qed.

(** The loop on a pool whose last windows all give a sample. *)
Lemma get_batch_loop_ok n (self : Epoch) x y todo rest samples :
  window_idxs self = rest ++ reverse todo ->
  length todo = n \/ (length todo < n)%nat /\ rest = [] ->
  mapM (get_sample self) todo = Ok samples ->
  get_batch_loop n self x y
  = (Ok (x ++ map fst samples, y ++ map snd samples), set_window_idxs rest self).
Proof.
  revert n self x y samples.
  induction todo as [|w todo IH]; intros n self x y samples Hpool Hn; simpl.
  - intros [= <-]. simpl. rewrite !app_nil_r. rewrite app_nil_r in Hpool.
    rewrite <- Hpool, set_window_idxs_id.
    destruct Hn as [<-|[_ ->]]; [reflexivity|].
    apply get_batch_loop_complete. exact Hpool.
  - destruct (get_sample self w) as [[sx sy]|e] eqn:Hw; simpl; [|discriminate].
    destruct (mapM (get_sample self) todo) as [samples'|e] eqn:Htodo; simpl;
      [|discriminate].
    intros [= <-]. destruct n as [|n]; [simpl in Hn; lia|]. simpl.
    rewrite reverse_cons, app_assoc in Hpool.
    assert (is_complete self = false) as ->.
    { destruct (is_complete self) eqn:Hc; [|reflexivity].
      apply is_complete_nil in Hc. rewrite Hc in Hpool.
      symmetry in Hpool. apply app_eq_nil in Hpool as [_ ?]. discriminate. }
    simpl. rewrite Hpool, list_pop_snoc, get_sample_config, Hw.
    rewrite (IH n (set_window_idxs (rest ++ reverse todo) self)
               (x ++ [sx]) (y ++ [sy]) samples').
    + rewrite <- !app_assoc. reflexivity.
    + reflexivity.
    + simpl in Hn. destruct Hn as [Hn|[Hn ->]]; [left; lia|right; split; [lia|reflexivity]].
    + exact Htodo.
Qed.


Lemma get_batch_ok (self : Epoch) samples sx sy :
  mapM (get_sample self) (next_windows self) = Ok samples ->
  Forall (fun s => shape (fst s) = sx /\ shape (snd s) = sy) samples ->
  let pool := window_idxs self in
  let k := Nat.min (Z.to_nat (batch_size self)) (length pool) in
  exists x y,
    get_batch self = (Ok (x, y), set_window_idxs (take (length pool - k) pool) self)
    /\ np_len x = Some k /\ np_len y = Some k.
Proof.
  intros Hsamples Hshapes pool k. unfold get_batch.
  rewrite (get_batch_loop_ok _ self [] [] (next_windows self)
             (take (length pool - k) pool) samples).
  - simpl.
    destruct (np_array_same_shape sx (map fst samples)) as (x & Hx & _).
    { rewrite Forall_map. eapply Forall_impl; [exact Hshapes|]. intros s [? _]. assumption. }
    destruct (np_array_same_shape sy (map snd samples)) as (y & Hy & _).
    { rewrite Forall_map. eapply Forall_impl; [exact Hshapes|]. intros s [_ ?]. assumption. }
    rewrite Hx. simpl. rewrite Hy. simpl. exists x, y. split; [reflexivity|].
    apply np_array_len in Hx, Hy. rewrite length_map in Hx, Hy.
    apply mapM_ok_length in Hsamples. unfold next_windows in Hsamples.
    rewrite length_reverse, length_drop in Hsamples. fold pool k in Hsamples.
    rewrite Hx, Hy. split; f_equal; lia.
  - unfold next_windows. fold pool k. rewrite reverse_involutive, take_drop. reflexivity.
  - unfold next_windows. fold pool k. rewrite length_reverse, length_drop.
    destruct (decide (Z.to_nat (batch_size self) <= length pool)%nat).
    + left. lia.
    + right. split; [lia|]. replace (length pool - k)%nat with 0%nat by lia. reflexivity.
  - exact Hsamples.
Qed.

(** C7. [get_batch] on an empty pool returns the empty batch and raises
    nothing.  For a batch size that is not negative, a batch that is
    returned has [min(batch_size, len(pool))] samples in [x] and in [y], the
    pool loses as many windows from its end, and the batch is returned
    whenever these windows give samples of one shape. *)
Theorem get_batch_length (self : Epoch) :
  let pool := window_idxs self in
  let k := Z.to_nat (Z.min (batch_size self) (Z.of_nat (length pool))) in
  0 <= batch_size self ->
  (pool = [] ->
     get_batch self = (Ok (NdArray [0%nat] [], NdArray [0%nat] []), self))
  /\ (forall x y self', get_batch self = (Ok (x, y), self') ->
        np_len x = Some k /\ np_len y = Some k
        /\ window_idxs self' = take (length pool - k) pool)
  /\ (forall sx sy,
        Forall (fun w => exists x y, get_sample self w = Ok (x, y)
                           /\ shape x = sx /\ shape y = sy)
               (drop (length pool - k) pool) ->
        exists x y self', get_batch self = (Ok (x, y), self')).
Proof.
  intros pool k Hbs.
  assert (k = Nat.min (Z.to_nat (batch_size self)) (length pool)) as Hk
    by (unfold k; lia).
  split; [|split].
  - apply get_batch_complete.
  - intros x y self'. unfold get_batch.
    destruct (get_batch_loop _ self [] []) as [[[xs ys]|e] self1] eqn:Hloop;
      simpl; [|discriminate].
    apply get_batch_loop_inv in Hloop. simpl in Hloop.
    destruct Hloop as (Hxs & Hys & ->). fold pool in Hxs, Hys |- *.
    rewrite <- Hk in *.
    destruct (np_array xs) as [x'|e] eqn:Hx; simpl; [|discriminate].
    destruct (np_array ys) as [y'|e] eqn:Hy; simpl; [|discriminate].
    intros [= <- <- <-]. apply np_array_len in Hx, Hy.
    rewrite Hx, Hy, Hxs, Hys. repeat split.
  - intros sx sy Hok. rewrite Hk in Hok.
    assert (exists samples,
              mapM (get_sample self) (next_windows self) = Ok samples
              /\ Forall (fun s => shape (fst s) = sx /\ shape (snd s) = sy) samples)
      as (samples & Hsamples & Hshapes).
    { unfold next_windows. fold pool.
      apply Forall_reverse in Hok. revert Hok.
      generalize (reverse (drop (length pool
                     - Nat.min (Z.to_nat (batch_size self)) (length pool)) pool)).
      induction 1 as [|w l (x & y & Hw & Hx & Hy) _ (samples & Hs & Hsh)]; simpl.
      - exists []. split; [reflexivity|constructor].
      - rewrite Hw, Hs. simpl. exists ((x, y) :: samples). split; [reflexivity|].
        constructor; [split; assumption|exact Hsh]. }
    destruct (get_batch_ok self samples sx sy Hsamples Hshapes) as (x & y & H & _).
    eauto.
Qed.

End Batches.


(** ** A whole epoch *)

Section WholeEpoch.
Context {numerics : Numerics} {dataset : Dataset}.




Lemma samples_exist (self : Epoch) sx sy (l : list window) :
  Forall (sample_shapes self sx sy) l ->
  exists samples,
    mapM (get_sample self) l = Ok samples
    /\ Forall (fun s => shape (fst s) = sx /\ shape (snd s) = sy) samples.
Proof.
  induction 1 as [|w l (x & y & Hw & Hx & Hy) _ (samples & Hs & Hsh)]; simpl.
  - exists []. split; [reflexivity|constructor].
  - rewrite Hw, Hs. simpl. exists ((x, y) :: samples). split; [reflexivity|].
    constructor; [split; assumption|exact Hsh].
Qed.

Lemma run_epoch_ok fuel (self : Epoch) sx sy :
  0 < batch_size self ->
  (length (window_idxs self) <= fuel)%nat ->
  Forall (sample_shapes self sx sy) (window_idxs self) ->
  exists calls final,
    run_epoch fuel self = (Ok calls, final)
    /\ window_idxs final = []
    /\ concat (map snd calls) = reverse (window_idxs self)
    /\ Forall (fun c => np_len (fst (fst c)) = Some (length (snd c))
                        /\ np_len (snd (fst c)) = Some (length (snd c))) calls.
Proof.
  revert self. induction fuel as [|fuel IH]; intros self Hbs Hlen Hok.
  - assert (window_idxs self = []) as Hnil
      by (destruct (window_idxs self); simpl in Hlen; [reflexivity|lia]).
    exists [], self. simpl. rewrite Hnil. repeat split. constructor.
  - simpl. destruct (is_complete self) eqn:Hc.
    + apply is_complete_nil in Hc. exists [], self. rewrite Hc.
      repeat split. constructor.
    + assert (window_idxs self <> []) as Hne.
      { intros Hnil. apply is_complete_nil in Hnil. congruence. }
      set (pool := window_idxs self) in *.
      set (k := Nat.min (Z.to_nat (batch_size self)) (length pool)).
      assert (1 <= k)%nat as Hk.
      { unfold k. destruct pool; [congruence|]. simpl. lia. }
      assert (Forall (sample_shapes self sx sy) (next_windows self)) as Hnext.
      { unfold next_windows. fold pool k. apply Forall_reverse, Forall_drop. exact Hok. }
      destruct (samples_exist _ _ _ _ Hnext) as (samples & Hsamples & Hshapes).
      destruct (get_batch_ok self samples sx sy Hsamples Hshapes)
        as (x & y & Hbatch & Hx & Hy).
      fold pool k in Hbatch, Hx, Hy. rewrite Hbatch.
      set (self1 := set_window_idxs (take (length pool - k) pool) self) in *.
      destruct (IH self1) as (calls & final & Hrun & Hfinal & Hcalls & Hlens).
      * exact Hbs.
      * change (window_idxs self1) with (take (length pool - k) pool).
        rewrite length_take. lia.
      * change (window_idxs self1) with (take (length pool - k) pool).
        apply Forall_take. exact Hok.
      * rewrite Hrun. simpl.
        assert (popped self self1 = reverse (drop (length pool - k) pool)) as Hpop.
        { unfold popped. change (window_idxs self1) with (take (length pool - k) pool).
          fold pool. rewrite length_take. f_equal. f_equal. lia. }
        exists ((x, y, popped self self1) :: calls), final.
        split; [reflexivity|]. split; [exact Hfinal|]. split.
        -- simpl. rewrite Hcalls, Hpop.
           change (window_idxs self1) with (take (length pool - k) pool).
           rewrite <- reverse_app, take_drop. reflexivity.
        -- constructor; [|exact Hlens]. simpl. rewrite Hpop, length_reverse, length_drop.
           rewrite Hx, Hy. split; f_equal; lia.
Qed.

Lemma partition_windows_seq (self : Epoch) seqs parts w :
  Forall2 (partition_of self) seqs parts -> w ∈ concat parts -> fst w ∈ seqs.
Proof.
  induction 1 as [|seq_no p rest parts (dir & _ & Hp) _ IH]; simpl; intros Hw.
  - inversion Hw.
  - apply elem_of_app in Hw as [Hw|Hw]; [|right; exact (IH Hw)].
    apply sequence_windows_inv in Hp as [_ ->].
    rewrite map_fmap in Hw. apply list_elem_of_fmap in Hw as (s & -> & _). left.
Qed.

Lemma partition_NoDup (self : Epoch) seqs parts :
  Forall2 (partition_of self) seqs parts -> NoDup seqs -> NoDup (concat parts).
Proof.
  induction 1 as [|seq_no p rest parts Hpart Hrest IH]; simpl; intros Hnd.
  - constructor.
  - apply NoDup_cons in Hnd as [Hnotin Hnd].
    apply NoDup_app. split; [|split; [|exact (IH Hnd)]].
    + destruct Hpart as (dir & _ & Hp).
      apply sequence_windows_inv in Hp as [Hstep ->].
      rewrite map_fmap. apply NoDup_fmap_2; [|apply range_items_NoDup; exact Hstep].
      intros s s' [= Hs _]. exact Hs.
    + intros w Hw Hw'. apply (partition_windows_seq _ _ _ _ Hrest) in Hw'.
      destruct Hpart as (dir & _ & Hp).
      apply sequence_windows_inv in Hp as [_ ->].
      rewrite map_fmap in Hw. apply list_elem_of_fmap in Hw as (s & -> & _).
      simpl in Hw'. contradiction.
Qed.

(** C2. Take a new epoch with a positive batch size whose windows all give
    samples of one shape, and call [get_batch] until [is_complete]: the
    calls succeed and end with [is_complete()] true; the windows they pop,
    call after call, are the pool from its end to its start, each entry of
    the pool once; every batch has one sample per window popped; the pool is
    a permutation of the windows of [partition_sequences] over all training
    sequences, so the samples of all batches are as many as these windows;
    and with distinct training sequences no window is popped twice. *)
Theorem epoch_draws_each_window_once rnd (dd : basedir) (fd : flow_store)
    (seqs : list string) (ws step bs : Z) (e : Epoch) (sx sy : list nat) :
  0 < bs ->
  Epoch_init rnd dd fd seqs ws step bs = Ok e ->
  Forall (fun w => exists x y, get_sample e w = Ok (x, y)
                     /\ shape x = sx /\ shape y = sy) (window_idxs e) ->
  exists parts calls final,
    Forall2 (fun seq_no p => exists dir, fd !! seq_no = Some dir
               /\ sequence_windows ws step seq_no (Z.of_nat (size dir)) = Ok p)
            seqs parts
    /\ window_idxs e ≡ₚ concat parts
    /\ run_epoch (length (window_idxs e)) e = (Ok calls, final)
    /\ is_complete final = true
    /\ concat (map snd calls) = reverse (window_idxs e)
    /\ Forall (fun c => np_len (fst (fst c)) = Some (length (snd c))
                        /\ np_len (snd (fst c)) = Some (length (snd c))) calls
    /\ total_samples calls = length (concat parts)
    /\ (NoDup seqs -> NoDup (concat (map snd calls))).
Proof.
  intros Hbs Hinit Hok.
  destruct (Epoch_init_inv _ _ _ _ _ _ _ _ Hinit)
    as (_ & Hfd & _ & Hws & Hstep & Hbatch & parts & Hparts & Hperm).
  destruct (run_epoch_ok (length (window_idxs e)) e sx sy)
    as (calls & final & Hrun & Hfinal & Hcalls & Hlens);
    [rewrite Hbatch; exact Hbs|reflexivity|exact Hok|].
  exists parts, calls, final.
  split; [|split; [exact Hperm|split; [exact Hrun|split; [|split; [exact Hcalls|
    split; [exact Hlens|split]]]]]].
  - unfold partition_of in Hparts. rewrite Hfd, Hws, Hstep in Hparts. exact Hparts.
  - apply is_complete_nil. exact Hfinal.
  - rewrite <- Hperm, <- (length_reverse (window_idxs e)), <- Hcalls.
    clear -Hlens. unfold total_samples.
    induction Hlens as [|c calls [Hx _] _ IH]; simpl; [reflexivity|].
    rewrite length_app, <- IH. unfold samples_in. rewrite Hx. reflexivity.
  - intros Hnd. rewrite Hcalls, reverse_Permutation, Hperm.
    eapply partition_NoDup; eassumption.
Qed.

End WholeEpoch.


(** ** Flow files *)

Ltac bool_to_prop :=
  repeat match goal with
  | H : (_ && _) = true |- _ => apply andb_true_iff in H as [? ?]
  | H : (_ <=? _)%N = true |- _ => apply N.leb_le in H
  | H : (_ <? _)%N = false |- _ => apply N.ltb_ge in H
  | H : (_ <? _)%N = true |- _ => apply N.ltb_lt in H
  | H : (_ =? _)%N = true |- _ => apply N.eqb_eq in H
  | H : (_ =? _)%N = false |- _ => apply N.eqb_neq in H
  end.

(** Text of code points below 128 is its own UTF-8 encoding. *)
Lemma utf8_decode_ascii (n : nat) : forall bs cps,
  (length bs <= n)%nat ->
  utf8_decode bs = Some cps ->
  Forall (fun c => (c < 128)%N) cps ->
  bs = cps.
Proof.
  induction n as [|n IH]; intros bs cps Hlen Hdec Hascii.
  - destruct bs; [|simpl in Hlen; lia]. injection Hdec as <-. reflexivity.
  - destruct bs as [|b0 r0]; [injection Hdec as <-; reflexivity|].
    simpl in Hlen, Hdec.
    destruct (b0 <? 128)%N eqn:H0.
    { destruct (utf8_decode r0) as [cps'|] eqn:Hr; [|discriminate].
      injection Hdec as <-. apply Forall_cons in Hascii as [_ Hascii].
      f_equal. apply IH; [lia|exact Hr|exact Hascii]. }
    exfalso.
    destruct (in_range 194 223 b0) eqn:H1.
    { destruct r0 as [|b1 r1]; [discriminate|].
      destruct (continuation b1) eqn:Hc1; [|discriminate].
      destruct (utf8_decode r1); [|discriminate].
      injection Hdec as <-. apply Forall_cons in Hascii as [Hc _].
      unfold in_range, continuation in *. bool_to_prop. lia. }
    destruct (in_range 224 239 b0) eqn:H2.
    { destruct r0 as [|b1 [|b2 r2]]; try discriminate.
      destruct (in_range _ _ b1 && continuation b2) eqn:Hc; [|discriminate].
      destruct (utf8_decode r2); [|discriminate].
      injection Hdec as <-. apply Forall_cons in Hascii as [Hc' _].
      unfold in_range, continuation in *.
      destruct (b0 =? 224)%N eqn:E1; destruct (b0 =? 237)%N eqn:E2;
        bool_to_prop; lia. }
    destruct (in_range 240 244 b0) eqn:H3; [|discriminate].
    destruct r0 as [|b1 [|b2 [|b3 r3]]]; try discriminate.
    destruct (in_range _ _ b1 && continuation b2 && continuation b3) eqn:Hc;
      [|discriminate].
    destruct (utf8_decode r3); [|discriminate].
    injection Hdec as <-. apply Forall_cons in Hascii as [Hc' _].
    unfold in_range, continuation in *.
    destruct (b0 =? 240)%N eqn:E1; destruct (b0 =? 244)%N eqn:E2;
      bool_to_prop; lia.
Qed.

Lemma byte_of_code (b : Byte.byte) (c : N) (b' : Byte.byte) :
  Byte.to_N b = c -> Byte.of_N c = Some b' -> b = b'.
Proof.
  intros <- H. rewrite Byte.of_to_N in H. congruence.
Qed.

(** A header that decodes to ['PIEH'] is [b'PIEH']. *)
Lemma header_PIEH (header : list Byte.byte) :
  utf8_decode (map Byte.to_N header) = Some PIEH -> header = magic.
Proof.
  intros H. apply (utf8_decode_ascii _ _ _ (Nat.le_refl _)) in H.
  - destruct header as [|b0 [|b1 [|b2 [|b3 [|b4 r]]]]]; try discriminate.
    injection H as H0 H1 H2 H3. unfold magic.
    f_equal; [|f_equal; [|f_equal; [|f_equal]]];
      eapply byte_of_code; try eassumption; reflexivity.
  - unfold PIEH. repeat constructor.
Qed.

Lemma wrap32_small z : - 2 ^ 31 <= z < 2 ^ 31 -> wrap32 z = z.
Proof. intros H. unfold wrap32. rewrite Z.mod_small; lia. Qed.

Lemma words4_length (n : nat) : forall bs,
  (4 * n <= length bs)%nat -> (n <= length (words4 bs))%nat.
Proof.
  induction n as [|n IH]; intros bs Hlen; [lia|].
  destruct bs as [|b0 [|b1 [|b2 [|b3 r]]]]; simpl in Hlen; try lia.
  simpl. apply le_n_S, IH. lia.
Qed.

Lemma np_reshape3_exact (d : list float) (d0 d1 d2 : Z) :
  0 <= d0 -> 0 <= d1 -> 0 <= d2 -> d0 * d1 * d2 = Z.of_nat (length d) ->
  np_reshape3 d d0 d1 d2 = Ok (NdArray [Z.to_nat d0; Z.to_nat d1; Z.to_nat d2] d).
Proof.
  intros H0 H1 H2 Hsize. unfold np_reshape3.
  assert (filter (fun z => z < 0) [d0; d1; d2] = []) as ->.
  { rewrite !filter_cons, filter_nil. rewrite !decide_False by lia. reflexivity. }
  assert (filter (fun z => 0 <= z) [d0; d1; d2] = [d0; d1; d2]) as ->.
  { rewrite !filter_cons, filter_nil. rewrite !decide_True by lia. reflexivity. }
  simpl length. cbn [foldr].
  assert ((d0 * (d1 * (d2 * 1)) =? Z.of_nat (length d)) = true) as ->
    by (apply Z.eqb_eq; lia).
  reflexivity.
Qed.

(** C8. A file whose first four bytes are not [b'PIEH'] (a shorter file
    too) makes [read_flow] raise with only the header read: the exception
    with the message about the header when the bytes decode as UTF-8, and
    [UnicodeDecodeError] when they do not.  After [b'PIEH'] the next four
    bytes are the signed width, the next four the signed height, and the
    first [width*height*2] four-byte floats after them are the flow, of
    shape [(height, width, 2)], when the dimensions are not negative, their
    product fits 32 bits and the file holds that many floats. *)
Theorem read_flow_magic_check :
  (forall bytes, take 4 bytes <> magic ->
     exists e,
       read_flow_file (File bytes 0)
       = (Raise e, File bytes (Nat.min 4 (length bytes)))
       /\ (e = UnicodeDecodeError <->
           utf8_decode (map Byte.to_N (take 4 bytes)) = None)
       /\ (e = Exception header_message <->
           utf8_decode (map Byte.to_N (take 4 bytes)) <> None))
  /\ (forall w0 w1 w2 w3 h0 h1 h2 h3 payload,
        let width := int32_of_bytes [w0; w1; w2; w3] in
        let height := int32_of_bytes [h0; h1; h2; h3] in
        let bytes := magic ++ [w0; w1; w2; w3] ++ [h0; h1; h2; h3] ++ payload in
        let count := Z.to_nat (width * height * 2) in
        0 <= width -> 0 <= height -> width * height * 2 < 2 ^ 31 ->
        (4 * count <= length payload)%nat ->
        read_flow_file (File bytes 0)
        = (Ok (NdArray [Z.to_nat height; Z.to_nat width; 2%nat]
                 (map float32_of_bytes (take count (words4 payload)))),
           File bytes (12 + 4 * count)))
  /\ read_flow_file (File flo_XXXX 0)
     = (Raise (Exception header_message), File flo_XXXX 4).
Proof.
  split; [|split].
  - intros bytes Hmagic. unfold read_flow_file, f_read. simpl pos. simpl content.
    rewrite drop_0, Nat.add_0_l, length_take.
    destruct (utf8_decode (map Byte.to_N (take 4 bytes))) as [text|] eqn:Hdec.
    + destruct (bool_decide (text <> PIEH)) eqn:Htext.
      * eexists. split; [reflexivity|]. split; split; congruence.
      * apply bool_decide_eq_false in Htext. apply dec_stable in Htext. subst text.
        apply header_PIEH in Hdec. contradiction.
    + eexists. split; [reflexivity|]. split; split; congruence.
  - intros w0 w1 w2 w3 h0 h1 h2 h3 payload width height bytes count
      Hw Hh Hfit Hpayload.
    assert (wrap32 (wrap32 (width * height) * 2) = width * height * 2) as Hcount.
    { rewrite (wrap32_small (width * height)) by nia. apply wrap32_small. nia. }
    assert (length (take count (words4 payload)) = count) as Hgot.
    { rewrite length_take. pose proof (words4_length count payload Hpayload). lia. }
    assert (f_read 4 (File bytes 0) = (magic, File bytes 4)) as Hheader
      by reflexivity.
    assert (np_fromfile 1 (File bytes 4) = ([[w0; w1; w2; w3]], File bytes 8))
      as Hwidth by reflexivity.
    assert (np_fromfile 1 (File bytes 8) = ([[h0; h1; h2; h3]], File bytes 12))
      as Hheight by reflexivity.
    assert (np_fromfile (width * height * 2) (File bytes 12)
            = (take count (words4 payload), File bytes (12 + 4 * count))) as Hflow.
    { unfold np_fromfile.
      assert ((width * height * 2 <? 0) = false) as -> by (apply Z.ltb_ge; nia).
      fold count. change (drop (pos (File bytes 12)) (content (File bytes 12)))
        with payload. cbn [pos content]. rewrite Nat.min_l by lia. reflexivity. }
    unfold read_flow_file. rewrite Hheader.
    change (utf8_decode (map Byte.to_N magic)) with (Some PIEH).
    change (bool_decide (PIEH <> PIEH)) with false. cbv iota.
    rewrite Hwidth, Hheight. cbv iota beta. fold width height.
    rewrite Hcount, Hflow.
    rewrite np_reshape3_exact; [reflexivity|lia|lia|lia|].
    rewrite length_map, Hgot. unfold count. rewrite Z2Nat.id by nia. lia.
  - vm_compute. reflexivity.
Qed.

Lemma read_flow_magic_check_witness :
  (exists e,
     read_flow_file (File flo_XXXX 0) = (Raise e, File flo_XXXX (Nat.min 4 20))
     /\ (e = UnicodeDecodeError <->
         utf8_decode (map Byte.to_N (take 4 flo_XXXX)) = None)
     /\ (e = Exception header_message <->
         utf8_decode (map Byte.to_N (take 4 flo_XXXX)) <> None))
  /\ read_flow_file (File flo_1x1 0)
     = (Ok (NdArray [1; 1; 2]%nat [1; -2.5]%float), File flo_1x1 20).
Proof.
  split.
  - apply (proj1 read_flow_magic_check flo_XXXX). vm_compute. discriminate.
  - apply (proj1 (proj2 read_flow_magic_check)
             Byte.x01 Byte.x00 Byte.x00 Byte.x00 Byte.x01 Byte.x00 Byte.x00 Byte.x00
             (bytes_of [0; 0; 128; 63; 0; 0; 32; 192]%N));
      vm_compute; try reflexivity; discriminate.
Defined.



Lemma example_epoch_init :
  Epoch_init (dataset := pose_store) (fun k => k) example_poses example_flowdir
    ["00"; "01"] 2 1 2 = Ok example_epoch.
Proof. vm_compute. reflexivity. Qed.

Lemma example_epoch_samples :
  Forall (fun w => exists x y,
            get_sample (numerics := axes_numerics) example_epoch w = Ok (x, y)
            /\ shape x = [3; 1; 1; 2]%nat /\ shape y = [2; 6]%nat)
         (window_idxs example_epoch).
Proof.
  repeat constructor; eexists; eexists; (split; [vm_compute; reflexivity|]);
    split; reflexivity.
Qed.

Lemma get_sample_window_lengths_witness :
  (exists seq_no s, ("00", (1, 4)) = (seq_no, (s, s + 2 + 1))
     /\ forall x y,
          get_sample (numerics := axes_numerics) example_epoch ("00", (1, 4))
          = Ok (x, y) ->
          np_len x = Some (Z.to_nat 2 + 1)%nat
          /\ forall raw,
               odometry (Dataset := pose_store) example_poses seq_no
                 (Some (range_items s (s + 2 + 1) 1)) = Ok raw ->
               np_len y = Some (length (poses raw) - 1)%nat)
  /\ (forall seq_no lo hi,
        Z.of_nat (length (range_items lo hi 1)) < 2 ->
        is_ok (get_sample (numerics := axes_numerics) example_epoch
                 (seq_no, (lo, hi))) = false).
Proof.
  apply (get_sample_window_lengths (numerics := axes_numerics)
           (dataset := pose_store) (fun k => k) example_poses example_flowdir
           ["00"; "01"] 2 1 2 example_epoch ("00", (1, 4))).
  - lia.
  - lia.
  - vm_compute. reflexivity.
  - apply list_elem_of_In. simpl. auto.
Defined.

Lemma get_batch_length_witness :
  let pool := window_idxs example_epoch in
  let k := Z.to_nat (Z.min 2 (Z.of_nat (length pool))) in
  (pool = [] ->
     get_batch (numerics := axes_numerics) example_epoch
     = (Ok (NdArray [0%nat] [], NdArray [0%nat] []), example_epoch))
  /\ (forall x y self',
        get_batch (numerics := axes_numerics) example_epoch = (Ok (x, y), self') ->
        np_len x = Some k /\ np_len y = Some k
        /\ window_idxs self' = take (length pool - k) pool)
  /\ (forall sx sy,
        Forall (fun w => exists x y,
                  get_sample (numerics := axes_numerics) example_epoch w = Ok (x, y)
                  /\ shape x = sx /\ shape y = sy)
               (drop (length pool - k) pool) ->
        exists x y self',
          get_batch (numerics := axes_numerics) example_epoch = (Ok (x, y), self')).
Proof.
  apply (get_batch_length (numerics := axes_numerics) example_epoch).
  vm_compute. discriminate.
Defined.

Lemma epoch_draws_each_window_once_witness :
  exists parts calls final,
    Forall2 (fun seq_no p => exists dir, example_flowdir !! seq_no = Some dir
               /\ sequence_windows 2 1 seq_no (Z.of_nat (size dir)) = Ok p)
            ["00"; "01"] parts
    /\ window_idxs example_epoch ≡ₚ concat parts
    /\ run_epoch (numerics := axes_numerics) 3 example_epoch = (Ok calls, final)
    /\ is_complete final = true
    /\ concat (map snd calls) = reverse (window_idxs example_epoch)
    /\ Forall (fun c => np_len (fst (fst c)) = Some (length (snd c))
                        /\ np_len (snd (fst c)) = Some (length (snd c))) calls
    /\ total_samples calls = length (concat parts)
    /\ (NoDup ["00"; "01"] -> NoDup (concat (map snd calls))).
Proof.
  apply (epoch_draws_each_window_once (numerics := axes_numerics)
           (dataset := pose_store) (fun k => k) example_poses example_flowdir
           ["00"; "01"] 2 1 2 example_epoch [3; 1; 1; 2]%nat [2; 6]%nat).
  - lia.
  - vm_compute. reflexivity.
  - repeat constructor; eexists; eexists; (split; [vm_compute; reflexivity|]);
      split; reflexivity.
Defined.

(** The sample of the pool window [("00", (1, 4))] for windows of 2: three
    flow frames in [x], two pose vectors in [y]. *)
Example get_sample_pool_window :
  exists x y,
    get_sample (numerics := axes_numerics) example_epoch ("00", (1, 4)) = Ok (x, y)
    /\ window_size example_epoch = 2
    /\ shape x = [3; 1; 1; 2]%nat
    /\ shape y = [2; 6]%nat.
Proof.
  eexists. eexists. split; [vm_compute; reflexivity|]. repeat split.
Qed.

(** A window cut to one frame: the padding of [y] raises. *)
Example get_sample_short_window :
  get_sample (numerics := axes_numerics) example_epoch ("00", (4, 5))
  = Raise TypeError.
Proof. vm_compute. reflexivity. Qed.

(** * Further properties *)

(** ** Not-a-number *)


Lemma is_nan_not_a_number (x : float) : is_nan x = true -> not_a_number x.
Proof.
  unfold is_nan, not_a_number. rewrite (FloatAxioms.eqb_spec x x). unfold SFeqb.
  destruct (Prim2SF x) as [s|s| |s m e]; simpl;
    try reflexivity; try discriminate; try (destruct s; discriminate).
  rewrite Z.compare_refl.
  replace (PosDef.Pos.compare_cont Eq m m) with Eq
    by (symmetry; exact (Pos.compare_cont_refl m Eq)).
  destruct s; discriminate.
Qed.

Lemma nan_mul_l a b : not_a_number a -> not_a_number (a * b).
Proof. unfold not_a_number. intros H. rewrite mul_spec, H. reflexivity. Qed.

Lemma nan_mul_r a b : not_a_number b -> not_a_number (a * b).
Proof.
  unfold not_a_number. intros H. rewrite mul_spec, H.
  destruct (Prim2SF a); reflexivity.
Qed.

Lemma nan_add_l a b : not_a_number a -> not_a_number (a + b).
Proof. unfold not_a_number. intros H. rewrite add_spec, H. reflexivity. Qed.

Lemma nan_add_r a b : not_a_number b -> not_a_number (a + b).
Proof.
  unfold not_a_number. intros H. rewrite add_spec, H.
  destruct (Prim2SF a); reflexivity.
Qed.

Lemma nan_sub_r a b : not_a_number b -> not_a_number (a - b).
Proof.
  unfold not_a_number. intros H. rewrite sub_spec, H.
  destruct (Prim2SF a); reflexivity.
Qed.

Lemma nan_sqrt a : not_a_number a -> not_a_number (PrimFloat.sqrt a).
Proof. unfold not_a_number. intros H. rewrite sqrt_spec, H. reflexivity. Qed.

Lemma nan_not_below a b : not_a_number a -> (a <? b)%float = false.
Proof. unfold not_a_number. intros H. rewrite ltb_spec, H. reflexivity. Qed.

Create HintDb nan discriminated.
#[local] Hint Resolve nan_mul_l nan_mul_r nan_add_l nan_add_r nan_sub_r nan_sqrt : nan.

Section PoseEdges.
Context {numerics : Numerics} {dataset : Dataset}.

(** X4. A rotation block with a NaN entry fails [is_rotation_matrix], so
    [rotation_matrix_to_euler_angles] raises [AssertionError] on it. *)
Theorem nan_rotation_rejected (r : mat3) :
  Exists (fun x => is_nan x = true) (mat3_entries r) ->
  is_rotation_matrix r = false
  /\ rotation_matrix_to_euler_angles r = Raise AssertionError.
Proof.
  intros Hnan.
  assert (is_rotation_matrix r = false) as Hr.
  { destruct_mat3 r. unfold mat3_entries in Hnan.
    repeat (apply Exists_cons in Hnan as [Hnan|Hnan];
            [apply is_nan_not_a_number in Hnan|]);
      [..|inversion Hnan];
      apply nan_not_below; unfold np_linalg_norm; cbn;
      auto 20 with nan. }
  split; [exact Hr|]. unfold rotation_matrix_to_euler_angles. rewrite Hr. reflexivity.
Qed.

(** X1. [process_poses] on no pose raises [IndexError]; on a single pose,
    whatever it is, it returns the empty array of shape [(0,)] and does not
    try to invert the pose. *)
Theorem process_poses_few :
  process_poses [] = Raise IndexError
  /\ forall p0, process_poses [p0] = Ok (NdArray [0%nat] []).
Proof. split; reflexivity. Qed.

Lemma mapM_raise {A B} (f : A -> result B) (pre : list A) (a : A) (post : list A) e :
  Forall (fun x => is_ok (f x) = true) pre ->
  f a = Raise e ->
  mapM f (pre ++ a :: post) = Raise e.
Proof.
  intros Hpre Ha. induction Hpre as [|x pre Hx _ IH]; simpl.
  - rewrite Ha. reflexivity.
  - destruct (f x); [|discriminate]. simpl. rewrite IH. reflexivity.
Qed.

Lemma mat_to_pose_vector_invalid pose :
  is_rotation_matrix (rotation_block pose) = false ->
  mat_to_pose_vector pose = Raise AssertionError.
Proof.
  intros Hr. unfold mat_to_pose_vector, rotation_matrix_to_euler_angles.
  rewrite Hr. reflexivity.
Qed.

(** X2. With two poses or more, [process_poses] raises what [inv] raises on
    the first pose; when [inv] gives [m], it returns exactly when every
    [m·p] has a rotation block that passes [is_rotation_matrix], and raises
    [AssertionError] otherwise. *)
Theorem process_poses_outcome (p0 p1 : mat4) (ps : list mat4) :
  (forall e, inv p0 = Raise e -> process_poses (p0 :: p1 :: ps) = Raise e)
  /\ (forall m, inv p0 = Ok m ->
        let valid p := is_rotation_matrix (rotation_block (np_dot4 m p)) in
        if forallb valid (p1 :: ps)
        then is_ok (process_poses (p0 :: p1 :: ps)) = true
        else process_poses (p0 :: p1 :: ps) = Raise AssertionError).
Proof.
  split.
  - intros e He. unfold process_poses. simpl. rewrite He. reflexivity.
  - intros m Hm valid.
    destruct (forallb valid (p1 :: ps)) eqn:Hall.
    + apply (process_poses_ok _ _ _ Hm). apply Forall_forall. intros p Hp.
      rewrite forallb_forall in Hall. apply Hall. apply list_elem_of_In. exact Hp.
    + assert (process_poses (p0 :: p1 :: ps)
              = mapM mat_to_pose_vector (map (np_dot4 m) (p1 :: ps)) ≫= np_array)
        as -> by (unfold process_poses; rewrite (rectify_poses_cons _ _ _ Hm);
                  reflexivity).
      assert (exists pre p post, map (np_dot4 m) (p1 :: ps) = pre ++ p :: post
                /\ Forall (fun x => is_ok (mat_to_pose_vector x) = true) pre
                /\ is_rotation_matrix (rotation_block p) = false)
        as (pre & p & post & Heq & Hpre & Hp).
      { clear -Hall. induction (p1 :: ps) as [|q l IH]; [discriminate|].
        simpl in Hall. destruct (valid q) eqn:Hq; simpl in Hall.
        - destruct (IH Hall) as (pre & p & post & Heq & Hpre & Hp).
          exists (np_dot4 m q :: pre), p, post. simpl. rewrite Heq.
          split; [reflexivity|]. split; [|exact Hp].
          constructor; [|exact Hpre]. apply mat_to_pose_vector_ok. exact Hq.
        - exists [], (np_dot4 m q), (map (np_dot4 m) l).
          split; [reflexivity|]. split; [constructor|exact Hq]. }
      rewrite Heq, (mapM_raise _ _ _ _ AssertionError Hpre); [reflexivity|].
      apply mat_to_pose_vector_invalid. exact Hp.
Qed.

(** X3. The vector of a pose has six entries: the three Euler angles of its
    rotation block, then its translation column [pose[0,3], pose[1,3],
    pose[2,3]], unchanged. *)
Theorem pose_vector_layout (pose : mat4) (v : ndarray) :
  mat_to_pose_vector pose = Ok v ->
  exists angles,
    rotation_matrix_to_euler_angles (rotation_block pose) = Ok angles
    /\ shape v = [6%nat]
    /\ take 3 (data v) = data angles
    /\ drop 3 (data v) = data (translation_column pose).
Proof.
  unfold mat_to_pose_vector.
  destruct (rotation_matrix_to_euler_angles _) as [a|e] eqn:Ha; simpl; [|discriminate].
  intros Hv. exists a. split; [reflexivity|].
  assert (length (data a) = 3%nat) as Hlen.
  { unfold rotation_matrix_to_euler_angles in Ha.
    destruct (negb _); [discriminate|].
    destruct (rotation_block pose) as [[[[r00 r01] r02] [[r10 r11] r12]] [[r20 r21] r22]].
    destruct (negb _); injection Ha as <-; reflexivity. }
  apply euler_angles_shape in Ha. unfold np_concatenate in Hv. rewrite Ha in Hv.
  destruct_mat4 pose. simpl in Hv. injection Hv as <-. simpl.
  split; [reflexivity|]. split.
  - rewrite take_app_length'; [reflexivity|symmetry; exact Hlen].
  - rewrite drop_app_length'; [reflexivity|symmetry; exact Hlen].
Qed.

(** X5. [get_stacked_rgbs], when it returns, gives one stacked pair for each
    two consecutive images: one fewer than the images of the dataset, and
    none for a dataset of one image or of none. *)
Theorem stacked_rgbs_count (data : odometry_data image) (batch_frames : Z)
    (stacked : list pixels) :
  get_stacked_rgbs data (Some batch_frames) = Ok stacked ->
  length stacked = (length (rgb data) - 1)%nat.
Proof.
  unfold get_stacked_rgbs.
  destruct (mean_pixels _ _) as [mean|e]; simpl; [|discriminate].
  destruct (mapM _ _) as [rgbs|e] eqn:Hrgbs; simpl; [|discriminate].
  intros H. apply mapM_ok_length in H, Hrgbs.
  rewrite length_map in Hrgbs.
  rewrite H, length_zip.
  assert (length (tail rgbs) = length rgbs - 1)%nat by (destruct rgbs; simpl; lia).
  lia.
Qed.

End PoseEdges.

(** ** More on the partition *)

Section PartitionEdges.
Context {numerics : Numerics} {dataset : Dataset}.

Lemma range_length_count ws step len_seq :
  0 < step -> range_length 1 (len_seq - ws + 1) step = window_count ws step len_seq.
Proof.
  intros Hstep. unfold range_length, window_count.
  assert ((0 <? step) = true) as -> by (apply Z.ltb_lt; lia).
  assert ((step <? 0) = false) as -> by (apply Z.ltb_ge; lia). simpl.
  destruct (len_seq <=? ws) eqn:Hle.
  - apply Z.leb_le in Hle.
    assert ((1 <? len_seq - ws + 1) = false) as -> by (apply Z.ltb_ge; lia).
    reflexivity.
  - apply Z.leb_gt in Hle.
    assert ((1 <? len_seq - ws + 1) = true) as -> by (apply Z.ltb_lt; lia).
    do 2 f_equal. lia.
Qed.

Lemma sum_list_app_Z (l k : list Z) :
  foldr Z.add 0 (l ++ k) = foldr Z.add 0 l + foldr Z.add 0 k.
Proof. induction l as [|a l IH]; simpl; lia. Qed.

(** X6. For a positive step a sequence of [len_seq] frames gives no window
    when [len_seq <= window_size] and
    [1 + (len_seq - window_size - 1) // step_size] windows otherwise; the
    pool of a new epoch holds as many windows as its training sequences give
    together. *)
Theorem pool_size rnd (dd : basedir) (fd : flow_store) (seqs : list string)
    (ws step bs : Z) (e : Epoch) :
  0 < step ->
  Epoch_init rnd dd fd seqs ws step bs = Ok e ->
  (forall seq_no len_seq p,
     sequence_windows ws step seq_no len_seq = Ok p ->
     Z.of_nat (length p) = window_count ws step len_seq)
  /\ exists dirs,
       Forall2 (fun seq_no dir => fd !! seq_no = Some dir) seqs dirs
       /\ Z.of_nat (length (window_idxs e))
          = foldr Z.add 0
              (map (fun dir => window_count ws step (Z.of_nat (size dir))) dirs).
Proof.
  intros Hstep Hinit.
  assert (forall seq_no len_seq p,
            sequence_windows ws step seq_no len_seq = Ok p ->
            Z.of_nat (length p) = window_count ws step len_seq) as Hcount.
  { intros seq_no len_seq p Hp. apply sequence_windows_inv in Hp as [_ ->].
    rewrite length_map, range_items_length. apply range_length_count. exact Hstep. }
  split; [exact Hcount|].
  apply Epoch_init_inv in Hinit
    as (_ & Hfd & _ & Hws & Hst & _ & parts & Hparts & Hperm).
  assert (length (window_idxs e) = length (concat parts)) as ->
    by (rewrite Hperm; reflexivity).
  clear Hperm. unfold partition_of in Hparts.
  rewrite Hfd, Hws, Hst in Hparts.
  induction Hparts as [|seq_no p rest parts (dir & Hdir & Hp) _ (dirs & Hdirs & IH)].
  - exists []. split; [constructor|reflexivity].
  - exists (dir :: dirs). split; [constructor; assumption|].
    simpl. rewrite length_app, Nat2Z.inj_add, IH, (Hcount _ _ _ Hp). reflexivity.
Qed.

(** X7. For a positive step, every window in the pool of a new epoch belongs
    to a training sequence, and every frame number in its range lies between
    1 and the number of flow files of that sequence: [get_sample] asks for
    no frame 0 and for no frame past the end. *)
Theorem pool_window_frames rnd (dd : basedir) (fd : flow_store) (seqs : list string)
    (ws step bs : Z) (e : Epoch) (seq_no : string) (lo hi : Z) :
  0 < step ->
  Epoch_init rnd dd fd seqs ws step bs = Ok e ->
  (seq_no, (lo, hi)) ∈ window_idxs e ->
  seq_no ∈ seqs
  /\ exists dir, fd !! seq_no = Some dir
       /\ forall f, f ∈ range_items lo hi 1 -> 1 <= f <= Z.of_nat (size dir).
Proof.
  intros Hstep Hinit Hw.
  destruct (pool_windows _ _ _ _ _ _ _ _ _ Hstep Hinit Hw)
    as (seq' & dir & s & Hdir & Hs & [= -> -> ->]).
  split.
  - apply Epoch_init_inv in Hinit as (_ & _ & _ & _ & _ & _ & parts & Hparts & Hperm).
    rewrite Hperm in Hw.
    apply (partition_windows_seq _ _ _ _ Hparts) in Hw. exact Hw.
  - exists dir. split; [exact Hdir|]. intros f Hf.
    apply list_elem_of_lookup in Hf as [i Hi].
    apply range_items_lookup in Hi as [-> Hlt].
    rewrite range_length_unit in Hlt. lia.
Qed.

(** X8. Take the windows of one sequence for a positive step.  If
    [step_size <= window_size + 1], every frame from 1 up to the last frame
    of any window is in some window.  If [step_size > window_size + 1], the
    frame after a window is in no window when there is a next window. *)
Theorem window_coverage (ws step len_seq : Z) (seq_no : string) (p : list window) :
  0 <= ws -> 0 < step ->
  sequence_windows ws step seq_no len_seq = Ok p ->
  (step <= ws + 1 ->
     forall w f, w ∈ p -> 1 <= f -> in_window w f \/ f < fst (snd w) ->
       exists w', w' ∈ p /\ in_window w' f)
  /\ (ws + 1 < step ->
     forall w w', w ∈ p -> w' ∈ p -> fst (snd w) < fst (snd w') ->
       forall w'', w'' ∈ p -> ~ in_window w'' (snd (snd w))).
Proof.
  intros Hws Hstep Hp. apply sequence_windows_inv in Hp as [_ ->].
  assert (forall w, w ∈ map (window_at ws len_seq seq_no)
                          (range_items 1 (len_seq - ws + 1) step) ->
            exists k, 0 <= k /\ 1 + k * step <= len_seq - ws
                      /\ w = (seq_no, (1 + k * step, 1 + k * step + ws + 1))) as Hin.
  { intros w Hw. rewrite map_fmap in Hw.
    apply list_elem_of_fmap in Hw as (s & -> & Hs).
    apply list_elem_of_lookup in Hs as [i Hi].
    apply range_items_lookup in Hi as [-> Hlt].
    apply range_length_from_one in Hlt; [|lia|lia].
    exists (Z.of_nat i). split; [lia|]. split; [lia|].
    unfold window_at. do 2 f_equal. lia. }
  assert (forall k, 0 <= k -> 1 + k * step <= len_seq - ws ->
            (seq_no, (1 + k * step, 1 + k * step + ws + 1))
            ∈ map (window_at ws len_seq seq_no)
                (range_items 1 (len_seq - ws + 1) step)) as Hout.
  { intros k Hk Hle. rewrite map_fmap. apply list_elem_of_fmap.
    exists (1 + k * step). split.
    - unfold window_at. do 2 f_equal. lia.
    - apply list_elem_of_lookup. exists (Z.to_nat k).
      apply range_items_lookup. rewrite Z2Nat.id by lia.
      split; [reflexivity|]. apply range_length_from_one; lia. }
  split.
  - intros Hsmall w f Hw Hf Hbelow.
    destruct (Hin w Hw) as (k & Hk & Hle & ->).
    unfold in_window in *. simpl in *.
    set (j := Z.min k ((f - 1) / step)).
    assert (0 <= (f - 1) / step) by (apply Z.div_pos; lia).
    assert (step * ((f - 1) / step) <= f - 1) by (apply Z.mul_div_le; lia).
    assert (f - 1 < step * ((f - 1) / step) + step).
    { pose proof (Z.mod_pos_bound (f - 1) step Hstep).
      pose proof (Z.div_mod (f - 1) step). lia. }
    exists (seq_no, (1 + j * step, 1 + j * step + ws + 1)). split.
    + apply Hout; unfold j; nia.
    + simpl. unfold j. destruct (Z.min_spec k ((f - 1) / step)) as [[? ->]|[? ->]]; nia.
  - intros Hbig w w' Hw Hw' Hlt w'' Hw''.
    destruct (Hin w Hw) as (k & Hk & Hle & ->).
    destruct (Hin w' Hw') as (k' & Hk' & Hle' & ->).
    destruct (Hin w'' Hw'') as (k'' & Hk'' & Hle'' & ->).
    unfold in_window. simpl in *. intros [H1 H2].
    destruct (Z_le_gt_dec k'' k); nia.
Qed.

Lemma partition_loop_is_ok (self : Epoch) seq_nos idxs :
  is_ok (partition_loop self seq_nos idxs) = true <->
  seq_nos = [] \/ (step_size self <> 0
                   /\ Forall (fun s => is_Some (flowdir self !! s)) seq_nos).
Proof.
  revert idxs. induction seq_nos as [|seq_no rest IH]; intros idxs; simpl.
  - split; [left; reflexivity|reflexivity].
  - split.
    + intros Hok. right.
      destruct (flowdir self !! seq_no) as [dir|] eqn:Hdir; [|discriminate].
      destruct (sequence_windows _ _ _ _) as [p|e] eqn:Hp; simpl in Hok; [|discriminate].
      apply sequence_windows_inv in Hp as [Hstep _].
      split; [exact Hstep|]. constructor; [rewrite Hdir; eauto|].
      apply IH in Hok as [->|[_ Hrest]]; [constructor|exact Hrest].
    + intros [Hnil|[Hstep Hall]]; [discriminate|].
      apply Forall_cons in Hall as [[dir Hdir] Hrest].
      rewrite Hdir, sequence_windows_ok by exact Hstep. simpl.
      apply IH. destruct rest; [left; reflexivity|right; split; assumption].
Qed.

(** X9. [Epoch.__init__] returns an epoch exactly when there is no training
    sequence, or the step is not zero and every training sequence has its
    directory under [flowdir]; with no training sequence even a zero step is
    accepted. *)
Theorem Epoch_init_succeeds rnd (dd : basedir) (fd : flow_store) (seqs : list string)
    (ws step bs : Z) :
  is_ok (Epoch_init rnd dd fd seqs ws step bs) = true <->
  seqs = [] \/ (step <> 0 /\ Forall (fun s => is_Some (fd !! s)) seqs).
Proof.
  unfold Epoch_init, partition_sequences.
  rewrite <- (partition_loop_is_ok (mkEpoch dd fd seqs ws step bs []) seqs []).
  simpl. destruct (partition_loop _ seqs []); reflexivity.
Qed.

End PartitionEdges.

(** ** More on samples and batches *)

Section BatchEdges.
Context {numerics : Numerics} {dataset : Dataset}.

(** X10. [get_sample] raises what the first flow file that cannot be read
    raises: [FileNotFoundError] for a missing file, the header exceptions
    for a bad one.  The frames before it are read, the poses are not
    processed. *)
Theorem get_sample_first_bad_frame (self : Epoch) (seq : string) (lo hi : Z)
    (before : list Z) (f : Z) (after : list Z) (e : exn) :
  range_items lo hi 1 = before ++ f :: after ->
  Forall (fun i => is_ok (read_flow (flowdir self) seq (flo_name i)) = true) before ->
  read_flow (flowdir self) seq (flo_name f) = Raise e ->
  get_sample self (seq, (lo, hi)) = Raise e
  /\ (flowdir self !! seq ≫= (fun dir => dir !! flo_name f) = None ->
      e = FileNotFoundError).
Proof.
  intros Hframes Hbefore Hf. split.
  - unfold get_sample. rewrite Hframes.
    rewrite (mapM_raise _ _ _ _ e Hbefore Hf). reflexivity.
  - intros Hmissing. unfold read_flow in Hf. rewrite Hmissing in Hf. congruence.
Qed.

Lemma get_batch_loop_shrinks n (self : Epoch) x y r self' :
  get_batch_loop n self x y = (r, self') ->
  exists kept, (kept <= length (window_idxs self))%nat
    /\ self' = set_window_idxs (take kept (window_idxs self)) self.
Proof.
  revert self x y. induction n as [|n IH]; intros self x y H; simpl in H.
  - injection H as <- <-. exists (length (window_idxs self)).
    split; [lia|]. rewrite firstn_all, set_window_idxs_id. reflexivity.
  - destruct (is_complete self) eqn:Hc; simpl in H.
    + apply IH in H. exact H.
    + destruct (window_idxs self) as [|w0 l0] eqn:Hpool using rev_ind.
      { apply is_complete_nil in Hpool. congruence. }
      clear IHl0. rewrite list_pop_snoc in H.
      destruct (get_sample _ w0) as [[sx sy]|e].
      * apply IH in H as (kept & Hkept & ->).
        change (window_idxs (set_window_idxs l0 self)) with l0 in *.
        exists kept. split; [rewrite length_app; lia|].
        rewrite take_app_le by lia. reflexivity.
      * injection H as <- <-. exists (length l0).
        split; [rewrite length_app; lia|].
        rewrite take_app_length. reflexivity.
Qed.

(** X11. Whatever [get_batch] does, return or raise, it changes nothing of
    the epoch but the pool, and the pool it leaves is a prefix of the pool
    it found: windows are only ever removed, from the end. *)
Theorem get_batch_pool_prefix (self : Epoch) r self' :
  get_batch self = (r, self') ->
  exists kept, (kept <= length (window_idxs self))%nat
    /\ self' = set_window_idxs (take kept (window_idxs self)) self.
Proof.
  unfold get_batch.
  destruct (get_batch_loop _ self [] []) as [r0 self0] eqn:Hloop.
  intros [= _ <-]. eapply get_batch_loop_shrinks. exact Hloop.
Qed.

Lemma get_batch_loop_raise n (self : Epoch) x y keep w done samples e :
  window_idxs self = keep ++ w :: reverse done ->
  (length done < n)%nat ->
  mapM (get_sample self) done = Ok samples ->
  get_sample self w = Raise e ->
  get_batch_loop n self x y = (Raise e, set_window_idxs keep self).
Proof.
  revert n self x y samples.
  induction done as [|d done IH]; intros n self x y samples Hpool Hn Hdone Hw;
    (destruct n as [|n]; [simpl in Hn; lia|]); simpl.
  - assert (is_complete self = false) as ->.
    { destruct (is_complete self) eqn:Hc; [|reflexivity].
      apply is_complete_nil in Hc. rewrite Hc in Hpool.
      destruct keep; discriminate. }
    simpl. change (keep ++ w :: reverse []) with (keep ++ [w]) in Hpool.
    rewrite Hpool, list_pop_snoc, get_sample_config, Hw. reflexivity.
  - simpl in Hdone.
    destruct (get_sample self d) as [[sx sy]|e'] eqn:Hd; simpl in Hdone; [|discriminate].
    destruct (mapM (get_sample self) done) as [samples'|e'] eqn:Hrest; [|discriminate].
    assert (window_idxs self = (keep ++ w :: reverse done) ++ [d]) as Hpool'.
    { rewrite Hpool, reverse_cons, <- app_assoc. reflexivity. }
    assert (is_complete self = false) as ->.
    { destruct (is_complete self) eqn:Hc; [|reflexivity].
      apply is_complete_nil in Hc. rewrite Hc in Hpool'.
      symmetry in Hpool'. apply app_eq_nil in Hpool' as [_ ?]. discriminate. }
    simpl. rewrite Hpool', list_pop_snoc, get_sample_config, Hd.
    rewrite (IH n (set_window_idxs (keep ++ w :: reverse done) self)
               (x ++ [sx]) (y ++ [sy]) samples').
    + reflexivity.
    + reflexivity.
    + simpl in Hn. lia.
    + exact Hrest.
    + exact Hw.
Qed.

(** X12. If the last windows of the pool give samples and the window before
    them raises, a [get_batch] large enough to reach that window raises the
    same exception, and every window it popped is gone from the pool, the
    failing one and the ones already sampled: the batch is lost. *)
Theorem get_batch_raises_and_drops (self : Epoch) (keep : list window) (w : window)
    (done : list window) (e : exn) :
  window_idxs self = keep ++ w :: reverse done ->
  Z.of_nat (length done) < batch_size self ->
  Forall (fun d => is_ok (get_sample self d) = true) done ->
  get_sample self w = Raise e ->
  get_batch self = (Raise e, set_window_idxs keep self).
Proof.
  intros Hpool Hbs Hdone Hw.
  destruct (mapM_ok_exists _ _ Hdone) as [samples Hsamples].
  unfold get_batch.
  rewrite (get_batch_loop_raise _ self [] [] keep w done samples e);
    [reflexivity|exact Hpool|lia|exact Hsamples|exact Hw].
Qed.

Lemma get_batch_inv (self : Epoch) x y self' :
  get_batch self = (Ok (x, y), self') ->
  let pool := window_idxs self in
  let k := Nat.min (Z.to_nat (batch_size self)) (length pool) in
  np_len x = Some k /\ np_len y = Some k
  /\ self' = set_window_idxs (take (length pool - k) pool) self.
Proof.
  unfold get_batch.
  destruct (get_batch_loop _ self [] []) as [[[xs ys]|e] self1] eqn:Hloop;
    simpl; [|discriminate].
  apply get_batch_loop_inv in Hloop. simpl in Hloop.
  destruct Hloop as (Hxs & Hys & ->).
  destruct (np_array xs) as [x'|e] eqn:Hx; simpl; [|discriminate].
  destruct (np_array ys) as [y'|e] eqn:Hy; simpl; [|discriminate].
  intros [= <- <- <-]. apply np_array_len in Hx, Hy.
  rewrite Hx, Hy, Hxs, Hys. repeat split.
Qed.

Lemma batch_sizes_nil b : batch_sizes 0 b = [].
Proof. unfold batch_sizes. rewrite Nat.Div0.div_0_l, Nat.Div0.mod_0_l. reflexivity. Qed.

Lemma batch_sizes_step (n b : nat) :
  (0 < n)%nat -> (0 < b)%nat ->
  batch_sizes n b = Nat.min b n :: batch_sizes (n - Nat.min b n) b.
Proof.
  intros Hn Hb. unfold batch_sizes.
  destruct (le_lt_dec b n) as [Hle|Hlt].
  - rewrite Nat.min_l by lia.
    assert (n / b = S ((n - b) / b))%nat as ->.
    { replace n with ((n - b) + 1 * b)%nat at 1 by lia.
      rewrite Nat.div_add by lia. lia. }
    assert (n mod b = (n - b) mod b)%nat as ->.
    { replace n with ((n - b) + 1 * b)%nat at 1 by lia.
      apply Nat.Div0.mod_add. }
    reflexivity.
  - rewrite Nat.min_r by lia.
    rewrite Nat.sub_diag, Nat.div_small, Nat.mod_small by lia.
    rewrite Nat.Div0.div_0_l, Nat.Div0.mod_0_l. simpl.
    destruct (n =? 0)%nat eqn:Hz; [apply Nat.eqb_eq in Hz; lia|reflexivity].
Qed.

Lemma batch_sizes_length (n b : nat) :
  (0 < b)%nat -> length (batch_sizes n b) = ((n + b - 1) / b)%nat.
Proof.
  intros Hb. unfold batch_sizes. rewrite length_app, length_replicate.
  pose proof (Nat.div_mod_eq n b) as Hdm.
  pose proof (Nat.mod_upper_bound n b ltac:(lia)) as Hlt.
  destruct (n mod b =? 0)%nat eqn:Hz.
  - apply Nat.eqb_eq in Hz. simpl.
    apply (Nat.div_unique _ _ _ (b - 1)); nia.
  - apply Nat.eqb_neq in Hz. simpl.
    apply (Nat.div_unique _ _ _ (n mod b - 1)); nia.
Qed.

Lemma run_epoch_sizes fuel (self : Epoch) calls final :
  0 < batch_size self ->
  (length (window_idxs self) <= fuel)%nat ->
  run_epoch fuel self = (Ok calls, final) ->
  map (fun c => length (snd c)) calls
  = batch_sizes (length (window_idxs self)) (Z.to_nat (batch_size self)).
Proof.
  revert self calls final. induction fuel as [|fuel IH]; intros self calls final Hbs Hlen Hrun.
  - simpl in Hrun. injection Hrun as <- <-.
    destruct (window_idxs self); simpl in Hlen; [|lia].
    rewrite batch_sizes_nil. reflexivity.
  - simpl in Hrun. destruct (is_complete self) eqn:Hc.
    + injection Hrun as <- <-. apply is_complete_nil in Hc. rewrite Hc.
      rewrite batch_sizes_nil. reflexivity.
    + assert (window_idxs self <> []) as Hne.
      { intros Hnil. apply is_complete_nil in Hnil. congruence. }
      destruct (get_batch self) as [[[x y]|e] self1] eqn:Hbatch; [|discriminate].
      apply get_batch_inv in Hbatch. cbv zeta in Hbatch.
      destruct Hbatch as (_ & _ & ->).
      set (pool := window_idxs self) in *.
      set (k := Nat.min (Z.to_nat (batch_size self)) (length pool)) in *.
      assert (1 <= k <= length pool)%nat as Hk.
      { unfold k. destruct pool; [congruence|]. simpl. lia. }
      destruct (run_epoch fuel _) as [[calls'|e] final'] eqn:Hrest; [|discriminate].
      injection Hrun as <- <-.
      apply IH in Hrest; [|exact Hbs|].
      * change (window_idxs (set_window_idxs (take (length pool - k) pool) self))
          with (take (length pool - k) pool) in Hrest.
        change (batch_size (set_window_idxs (take (length pool - k) pool) self))
          with (batch_size self) in Hrest.
        rewrite length_take in Hrest.
        simpl. rewrite Hrest. unfold popped.
        change (window_idxs (set_window_idxs (take (length pool - k) pool) self))
          with (take (length pool - k) pool).
        fold pool. rewrite length_reverse, length_drop, length_take.
        rewrite (batch_sizes_step (length pool)) by lia. fold k.
        f_equal; [lia|]. f_equal. lia.
      * change (window_idxs (set_window_idxs (take (length pool - k) pool) self))
          with (take (length pool - k) pool).
        rewrite length_take. lia.
Qed.

(** X13. An epoch with [n] windows in its pool and a positive batch size [b],
    whose windows give samples of one shape, is finished in
    [ceil(n / b)] calls of [get_batch]; the calls pop [b] windows each,
    except a last one that pops the [n mod b] left over. *)
Theorem epoch_batch_sizes (self : Epoch) (sx sy : list nat) :
  let n := length (window_idxs self) in
  let b := Z.to_nat (batch_size self) in
  0 < batch_size self ->
  Forall (fun w => exists x y, get_sample self w = Ok (x, y)
                     /\ shape x = sx /\ shape y = sy) (window_idxs self) ->
  exists calls final,
    run_epoch n self = (Ok calls, final)
    /\ is_complete final = true
    /\ map (fun c => length (snd c)) calls = batch_sizes n b
    /\ length calls = ((n + b - 1) / b)%nat.
Proof.
  intros n b Hbs Hok.
  destruct (run_epoch_ok n self sx sy Hbs (Nat.le_refl _) Hok)
    as (calls & final & Hrun & Hfinal & _ & _).
  exists calls, final. split; [exact Hrun|].
  split; [apply is_complete_nil; exact Hfinal|].
  pose proof (run_epoch_sizes n self calls final Hbs (Nat.le_refl _) Hrun) as Hsizes.
  split; [exact Hsizes|].
  rewrite <- (length_map (fun c => length (snd c)) calls), Hsizes.
  apply batch_sizes_length. unfold b. lia.
Qed.

End BatchEdges.

(** ** More on flow files *)

Lemma np_reshape3_mismatch (d : list float) (d0 d1 d2 : Z) :
  0 <= d0 -> 0 <= d1 -> 0 <= d2 -> d0 * d1 * d2 <> Z.of_nat (length d) ->
  np_reshape3 d d0 d1 d2 = Raise ValueError.
Proof.
  intros H0 H1 H2 Hsize. unfold np_reshape3.
  assert (filter (fun z => z < 0) [d0; d1; d2] = []) as ->.
  { rewrite !filter_cons, filter_nil. rewrite !decide_False by lia. reflexivity. }
  assert (filter (fun z => 0 <= z) [d0; d1; d2] = [d0; d1; d2]) as ->.
  { rewrite !filter_cons, filter_nil. rewrite !decide_True by lia. reflexivity. }
  simpl length. cbn [foldr].
  assert ((d0 * (d1 * (d2 * 1)) =? Z.of_nat (length d)) = false) as ->
    by (apply Z.eqb_neq; lia).
  reflexivity.
Qed.

Lemma words4_remainder (n : nat) : forall bs,
  (length bs <= n)%nat -> (length bs < 4 * length (words4 bs) + 4)%nat.
Proof.
  induction n as [|n IH]; intros bs Hlen.
  - destruct bs; simpl in *; lia.
  - destruct bs as [|b0 [|b1 [|b2 [|b3 r]]]]; simpl in *; try lia.
    pose proof (IH r ltac:(lia)). lia.
Qed.

(** X14. A flow file with the magic, a width and a height that are not
    negative and whose product fits, but with fewer than [width*height*2]
    whole floats after them, makes [read_flow] raise [ValueError]: the read
    takes every byte that is left, to the end of the file, and the reshape
    refuses the floats that were there. *)
Theorem read_flow_truncated w0 w1 w2 w3 h0 h1 h2 h3 (payload : list Byte.byte) :
  let width := int32_of_bytes [w0; w1; w2; w3] in
  let height := int32_of_bytes [h0; h1; h2; h3] in
  let bytes := magic ++ [w0; w1; w2; w3] ++ [h0; h1; h2; h3] ++ payload in
  0 <= width -> 0 <= height -> width * height * 2 < 2 ^ 31 ->
  Z.of_nat (length (words4 payload)) < width * height * 2 ->
  read_flow_file (File bytes 0)
  = (Raise ValueError, File bytes (length bytes)).
Proof.
  intros width height bytes Hw Hh Hfit Hshort.
  assert (wrap32 (wrap32 (width * height) * 2) = width * height * 2) as Hcount.
  { rewrite (wrap32_small (width * height)) by nia. apply wrap32_small. nia. }
  assert (f_read 4 (File bytes 0) = (magic, File bytes 4)) as Hheader
    by reflexivity.
  assert (np_fromfile 1 (File bytes 4) = ([[w0; w1; w2; w3]], File bytes 8))
    as Hwidth by reflexivity.
  assert (np_fromfile 1 (File bytes 8) = ([[h0; h1; h2; h3]], File bytes 12))
    as Hheight by reflexivity.
  assert (np_fromfile (width * height * 2) (File bytes 12)
          = (words4 payload, File bytes (length bytes))) as Hflow.
  { unfold np_fromfile.
    assert ((width * height * 2 <? 0) = false) as -> by (apply Z.ltb_ge; nia).
    change (drop (pos (File bytes 12)) (content (File bytes 12))) with payload.
    cbn [pos content]. rewrite take_ge by lia.
    pose proof (words4_remainder _ payload (Nat.le_refl _)) as Hrest.
    rewrite Nat.min_r by lia. reflexivity. }
  unfold read_flow_file. rewrite Hheader.
  change (utf8_decode (map Byte.to_N magic)) with (Some PIEH).
  change (bool_decide (PIEH <> PIEH)) with false. cbv iota.
  rewrite Hwidth, Hheight. cbv iota beta. fold width height.
  rewrite Hcount, Hflow.
  rewrite np_reshape3_mismatch; [reflexivity|lia|lia|lia|].
  rewrite length_map. lia.
Qed.

(** ** The module [batcher.py] *)

Section BatcherEdges.
Context {numerics : Numerics} {dataset : Dataset}.

(** X15. [batcher] never returns a batch: with no training sequence
    [random.choice] raises [IndexError], and with any its call of
    [get_seq_total_frames] with one argument raises [TypeError].  The
    [test_batch] of the module raises [TypeError] as soon as the sequence is
    loaded. *)
Theorem batcher_never_returns rnd (tree : image_tree) (base : basedir)
    (batch_frames : Z) (train_seqs : list string) :
  batcher rnd tree base batch_frames train_seqs
  = Raise (if decide (train_seqs = []) then IndexError else TypeError)
  /\ forall seq data, odometry base seq None = Ok data ->
       batcher_test_batch base seq = Raise TypeError.
Proof.
  split.
  - unfold batcher, random_choice. destruct train_seqs as [|s l]; [reflexivity|].
    rewrite decide_False by discriminate.
    destruct ((s :: l) !! _) as [sequence|] eqn:Hs; [reflexivity|].
    apply lookup_ge_None in Hs.
    pose proof (Nat.mod_upper_bound (rnd 0%nat) (length (s :: l))) as Hlt.
    simpl in *. lia.
  - intros seq data Hdata. unfold batcher_test_batch. rewrite Hdata. reflexivity.
Qed.

(** X16. [process_poses] of [batcher.py], when it returns, gives one vector
    of six entries for every pose but the first, and stacking them with
    [np.array] is what [process_poses] of [Epoch.py] returns on the same
    poses. *)
Theorem batcher_process_poses_agrees (data : odometry_data image) (vs : list ndarray) :
  batcher_process_poses data = Ok vs ->
  length vs = (length (poses data) - 1)%nat
  /\ Forall (fun v => shape v = [6%nat]) vs
  /\ process_poses (poses data) = np_array vs.
Proof.
  unfold batcher_process_poses, process_poses.
  destruct (rectify_poses (poses data)) as [r|e] eqn:Hr; simpl; [|discriminate].
  intros Hvs. split; [|split].
  - apply rectify_poses_length in Hr. apply mapM_ok_length in Hvs. lia.
  - apply mapM_ok_Forall2 in Hvs. clear -Hvs.
    induction Hvs; constructor; eauto using mat_to_pose_vector_shape.
  - rewrite Hvs. reflexivity.
Qed.

End BatcherEdges.

Section MoreEdges.
Context {numerics : Numerics} {dataset : Dataset}.

(** X17. The random draws decide only the order of the pool: two epochs
    built from the same arguments with different draws have the same
    attributes and pools that are permutations of each other, and one is
    built whenever the other is. *)
Theorem shuffle_only_reorders rnd1 rnd2 (dd : basedir) (fd : flow_store)
    (seqs : list string) (ws step bs : Z) (e1 : Epoch) :
  Epoch_init rnd1 dd fd seqs ws step bs = Ok e1 ->
  exists e2,
    Epoch_init rnd2 dd fd seqs ws step bs = Ok e2
    /\ window_idxs e1 ≡ₚ window_idxs e2
    /\ set_window_idxs [] e1 = set_window_idxs [] e2.
Proof.
  unfold Epoch_init, partition_sequences.
  destruct (partition_loop _ _ _) as [idxs|err]; simpl; [|discriminate].
  intros [= <-]. eexists. split; [reflexivity|]. split; [|reflexivity].
  simpl. rewrite !random_shuffle_perm. reflexivity.
Qed.

(** X18. After a [get_batch] that returns, [is_complete()] is true exactly
    when the batch size was at least the number of windows left. *)
Theorem complete_after_batch (self : Epoch) x y self' :
  get_batch self = (Ok (x, y), self') ->
  (is_complete self' = true <->
   (length (window_idxs self) <= Z.to_nat (batch_size self))%nat).
Proof.
  intros H. apply get_batch_inv in H. cbv zeta in H. destruct H as (_ & _ & ->).
  rewrite is_complete_nil.
  change (window_idxs (set_window_idxs ?l self)) with l.
  set (pool := window_idxs self). set (b := Z.to_nat (batch_size self)).
  split.
  - intros Hnil. apply (f_equal length) in Hnil.
    rewrite length_take in Hnil. simpl in Hnil. lia.
  - intros Hle. replace (length pool - Nat.min b (length pool))%nat with 0%nat by lia.
    reflexivity.
Qed.

(** X19. With a batch size of zero or less [get_batch] returns the empty
    batch and pops nothing, whatever the pool holds: a caller that loops
    until [is_complete()] makes no progress.  *)
Theorem get_batch_no_progress (self : Epoch) :
  batch_size self <= 0 ->
  get_batch self = (Ok (NdArray [0%nat] [], NdArray [0%nat] []), self)
  /\ forall fuel, is_complete self = false ->
       snd (run_epoch fuel self) = self.
Proof.
  intros Hbs.
  assert (get_batch self = (Ok (NdArray [0%nat] [], NdArray [0%nat] []), self)) as Hb.
  { unfold get_batch. replace (Z.to_nat (batch_size self)) with 0%nat by lia.
    reflexivity. }
  split; [exact Hb|]. intros fuel Hc.
  induction fuel as [|fuel IH]; simpl; [reflexivity|].
  rewrite Hc, Hb. destruct (run_epoch fuel self) as [r final]. simpl in *. exact IH.
Qed.

(** X20. [get_seq_total_frames] returns the number of regular files of the
    image directory less one, the index of the last frame: one more regular
    file raises it by one, one more sub-directory leaves it as it is, and a
    missing directory raises [FileNotFoundError]. *)
Theorem total_frames_counts_files (tree : image_tree) (seq base : string)
    (entries : gmap string bool) (name : string) (regular : bool) :
  let path := base +:+ "sequences/" +:+ seq +:+ "/image_2/" in
  entries !! name = None ->
  (tree !! path = None ->
     get_seq_total_frames tree seq (Some base) = Raise FileNotFoundError)
  /\ exists n,
       get_seq_total_frames (<[path := entries]> tree) seq (Some base) = Ok n
       /\ -1 <= n < Z.of_nat (size entries)
       /\ get_seq_total_frames (<[path := <[name := regular]> entries]> tree) seq
            (Some base)
          = Ok (if regular then n + 1 else n).
Proof.
  intros path Hfresh. split.
  - intros Hnone. unfold get_seq_total_frames. fold path. rewrite Hnone. reflexivity.
  - unfold get_seq_total_frames. fold path. rewrite !lookup_insert_eq.
    eexists. split; [reflexivity|]. split.
    + pose proof (length_filter (fun f : string * bool => snd f = true)
                    (map_to_list entries)) as Hle.
      rewrite length_map_to_list in Hle. lia.
    + f_equal.
      rewrite (map_to_list_insert entries name regular Hfresh), filter_cons.
      simpl. destruct regular.
      * rewrite decide_True by reflexivity. simpl length. lia.
      * rewrite decide_False by discriminate. reflexivity.
Qed.

End MoreEdges.

(** ** The further properties on the example data *)

Lemma nan_rotation_rejected_witness :
  is_rotation_matrix nan_block = false
  /\ rotation_matrix_to_euler_angles (numerics := axes_numerics) nan_block
     = Raise AssertionError.
Proof.
  apply (nan_rotation_rejected (numerics := axes_numerics) nan_block).
  apply Exists_cons_hd. reflexivity.
Defined.

Lemma process_poses_outcome_witness :
  process_poses (numerics := axes_numerics) [flat_pose; moved 1; moved 2]
  = Raise LinAlgError
  /\ is_ok (process_poses (numerics := axes_numerics) [moved 1; moved 2; moved 4])
     = true.
Proof.
  split.
  - apply (proj1 (process_poses_outcome (numerics := axes_numerics)
                    flat_pose (moved 1) [moved 2])).
    vm_compute. reflexivity.
  - apply (proj2 (process_poses_outcome (numerics := axes_numerics)
                    (moved 1) (moved 2) [moved 4]) (moved (-1))).
    vm_compute. reflexivity.
Defined.

Lemma pose_vector_layout_witness :
  exists angles,
    rotation_matrix_to_euler_angles (numerics := axes_numerics)
      (rotation_block (moved 3)) = Ok angles
    /\ shape (np_array1 [0; -0; 0; 3; 0; 0]%float) = [6%nat]
    /\ take 3 (data (np_array1 [0; -0; 0; 3; 0; 0]%float)) = data angles
    /\ drop 3 (data (np_array1 [0; -0; 0; 3; 0; 0]%float))
       = data (translation_column (moved 3)).
Proof.
  apply (pose_vector_layout (numerics := axes_numerics) (moved 3)).
  vm_compute. reflexivity.
Defined.

Lemma stacked_rgbs_count_witness :
  length [[-2; 0; -3; -1]; [0; 2; -1; 4]]%float
  = (length (rgb example_images) - 1)%nat.
Proof.
  apply (stacked_rgbs_count (dataset := flat_images) example_images 3).
  vm_compute. reflexivity.
Defined.

Lemma pool_size_witness :
  (forall seq_no len_seq p,
     sequence_windows 2 1 seq_no len_seq = Ok p ->
     Z.of_nat (length p) = window_count 2 1 len_seq)
  /\ exists dirs,
       Forall2 (fun seq_no dir => example_flowdir !! seq_no = Some dir)
               ["00"; "01"] dirs
       /\ Z.of_nat (length (window_idxs example_epoch))
          = foldr Z.add 0
              (map (fun dir => window_count 2 1 (Z.of_nat (size dir))) dirs).
Proof.
  apply (pool_size (dataset := pose_store) (fun k => k) example_poses
           example_flowdir ["00"; "01"] 2 1 2 example_epoch).
  - lia.
  - vm_compute. reflexivity.
Defined.

Lemma pool_window_frames_witness :
  "00" ∈ ["00"; "01"]
  /\ exists dir, example_flowdir !! "00" = Some dir
       /\ forall f, f ∈ range_items 2 5 1 -> 1 <= f <= Z.of_nat (size dir).
Proof.
  apply (pool_window_frames (dataset := pose_store) (fun k => k) example_poses
           example_flowdir ["00"; "01"] 2 1 2 example_epoch "00" 2 5).
  - lia.
  - vm_compute. reflexivity.
  - apply list_elem_of_In. simpl. auto.
Defined.

Lemma window_coverage_witness :
  (1 <= 2 + 1 ->
     forall w f, w ∈ [("00", (1, 4)); ("00", (2, 5))] -> 1 <= f ->
       in_window w f \/ f < fst (snd w) ->
       exists w', w' ∈ [("00", (1, 4)); ("00", (2, 5))] /\ in_window w' f)
  /\ (2 + 1 < 1 ->
     forall w w', w ∈ [("00", (1, 4)); ("00", (2, 5))] ->
       w' ∈ [("00", (1, 4)); ("00", (2, 5))] -> fst (snd w) < fst (snd w') ->
       forall w'', w'' ∈ [("00", (1, 4)); ("00", (2, 5))] ->
         ~ in_window w'' (snd (snd w))).
Proof.
  apply (window_coverage 2 1 4 "00").
  - lia.
  - lia.
  - reflexivity.
Defined.

Lemma get_sample_first_bad_frame_witness :
  get_sample (numerics := axes_numerics) broken_epoch ("00", (4, 7))
  = Raise FileNotFoundError
  /\ (flowdir broken_epoch !! "00" ≫= (fun dir => dir !! flo_name 5) = None ->
      FileNotFoundError = FileNotFoundError).
Proof.
  apply (get_sample_first_bad_frame (numerics := axes_numerics) broken_epoch
           "00" 4 7 [4] 5 [6] FileNotFoundError).
  - reflexivity.
  - repeat constructor.
  - vm_compute. reflexivity.
Defined.

Lemma get_batch_pool_prefix_witness :
  exists kept, (kept <= length (window_idxs example_epoch))%nat
    /\ snd (get_batch (numerics := axes_numerics) example_epoch)
       = set_window_idxs (take kept (window_idxs example_epoch)) example_epoch.
Proof.
  apply (get_batch_pool_prefix (numerics := axes_numerics) example_epoch
           (fst (get_batch (numerics := axes_numerics) example_epoch))).
  destruct (get_batch example_epoch). reflexivity.
Defined.

Lemma get_batch_raises_and_drops_witness :
  get_batch (numerics := axes_numerics) broken_epoch
  = (Raise FileNotFoundError, set_window_idxs [("00", (1, 4))] broken_epoch).
Proof.
  apply (get_batch_raises_and_drops (numerics := axes_numerics) broken_epoch
           [("00", (1, 4))] ("00", (4, 7)) [("01", (1, 4))] FileNotFoundError).
  - reflexivity.
  - vm_compute. reflexivity.
  - repeat constructor.
  - vm_compute. reflexivity.
Defined.

Lemma epoch_batch_sizes_witness :
  exists calls final,
    run_epoch (numerics := axes_numerics) 3 example_epoch = (Ok calls, final)
    /\ is_complete final = true
    /\ map (fun c => length (snd c)) calls = batch_sizes 3 2
    /\ length calls = ((3 + 2 - 1) / 2)%nat.
Proof.
  apply (epoch_batch_sizes (numerics := axes_numerics) example_epoch
           [3; 1; 1; 2]%nat [2; 6]%nat).
  - vm_compute. reflexivity.
  - repeat constructor; eexists; eexists; (split; [vm_compute; reflexivity|]);
      split; reflexivity.
Defined.

Lemma read_flow_truncated_witness :
  read_flow_file
    (File (magic ++ bytes_of [1; 0; 0; 0; 1; 0; 0; 0; 0; 0; 128; 63; 7]%N) 0)
  = (Raise ValueError,
     File (magic ++ bytes_of [1; 0; 0; 0; 1; 0; 0; 0; 0; 0; 128; 63; 7]%N) 17).
Proof.
  apply (read_flow_truncated Byte.x01 Byte.x00 Byte.x00 Byte.x00
           Byte.x01 Byte.x00 Byte.x00 Byte.x00 (bytes_of [0; 0; 128; 63; 7]%N));
    vm_compute; try reflexivity; discriminate.
Defined.

Lemma batcher_process_poses_agrees_witness :
  length [np_array1 [0; -0; 0; 1; 0; 0]%float; np_array1 [0; -0; 0; 3; 0; 0]%float]
  = (length [moved 1; moved 2; moved 4] - 1)%nat
  /\ Forall (fun v => shape v = [6%nat])
       [np_array1 [0; -0; 0; 1; 0; 0]%float; np_array1 [0; -0; 0; 3; 0; 0]%float]
  /\ process_poses (numerics := axes_numerics) [moved 1; moved 2; moved 4]
     = np_array
         [np_array1 [0; -0; 0; 1; 0; 0]%float; np_array1 [0; -0; 0; 3; 0; 0]%float].
Proof.
  apply (batcher_process_poses_agrees (numerics := axes_numerics)
           (dataset := pose_store) (OdometryData [moved 1; moved 2; moved 4] [])).
  vm_compute. reflexivity.
Defined.

Lemma shuffle_only_reorders_witness :
  exists e2,
    Epoch_init (dataset := pose_store) (fun _ => 0%nat) example_poses
      example_flowdir ["00"; "01"] 2 1 2 = Ok e2
    /\ window_idxs example_epoch ≡ₚ window_idxs e2
    /\ set_window_idxs [] example_epoch = set_window_idxs [] e2.
Proof.
  apply (shuffle_only_reorders (dataset := pose_store) (fun k => k)).
  vm_compute. reflexivity.
Defined.

Lemma complete_after_batch_witness :
  is_complete (snd (get_batch (numerics := axes_numerics) example_epoch)) = true
  <-> (length (window_idxs example_epoch)
       <= Z.to_nat (batch_size example_epoch))%nat.
Proof.
  destruct (get_batch (numerics := axes_numerics) example_epoch)
    as [[[x y]|e] self'] eqn:Hbatch.
  - exact (complete_after_batch (numerics := axes_numerics) example_epoch
             x y self' Hbatch).
  - vm_compute in Hbatch. discriminate.
Defined.

Lemma get_batch_no_progress_witness :
  get_batch (numerics := axes_numerics) idle_epoch
  = (Ok (NdArray [0%nat] [], NdArray [0%nat] []), idle_epoch)
  /\ forall fuel, is_complete idle_epoch = false ->
       snd (run_epoch (numerics := axes_numerics) fuel idle_epoch) = idle_epoch.
Proof.
  apply (get_batch_no_progress (numerics := axes_numerics) idle_epoch).
  vm_compute. discriminate.
Defined.

Lemma total_frames_counts_files_witness :
  let path := "/data/" +:+ "sequences/" +:+ "00" +:+ "/image_2/" in
  ((∅ : image_tree) !! path = None ->
     get_seq_total_frames (∅ : image_tree) "00" (Some "/data/") = Raise FileNotFoundError)
  /\ exists n,
       get_seq_total_frames (<[path := example_frames]> (∅ : image_tree)) "00" (Some "/data/") = Ok n
       /\ -1 <= n < Z.of_nat (size example_frames)
       /\ get_seq_total_frames
            (<[path := <["000002.png" := true]> example_frames]> (∅ : image_tree)) "00"
            (Some "/data/")
          = Ok (if true then n + 1 else n).
Proof.
  apply (total_frames_counts_files (∅ : image_tree) "00" "/data/" example_frames "000002.png" true).
  vm_compute. reflexivity.
Defined.
